(** * WEEKLYPLANNER backend: credential verifier, session store, loader and
      activity extraction

    A shallow embedding of the Node.js server of the repository (the file
    that declares [cleanValue], [loadData], [verifyPassword],
    [createSession], [getSession], [extractActivities] and the request
    handler), with the properties its specification states about it.

    Conventions of the embedding:
    - a JavaScript string is a [string]; each character stands for one
      UTF-16 code unit below 256;
    - a spreadsheet cell or a field of a request body is a JSON scalar,
      [JsVal]; a row object is a finite map from column names to cells,
      an absent key reads as [JUndefined];
    - a JavaScript number is an IEEE 754 binary64 value, [float];
      [Date.now()] and the expiry of a session are integers, [Z];
    - a call that can throw returns a [Result];
    - what the Node.js runtime computes and the program only calls
      (scrypt, SHA-256, number and date conversions, lower-casing, the
      text of an array that has been written into) is an operation of the
      class [Runtime];
    - [Object.prototype] is part of the global state: a program-rule row
      named ["__proto__"] stores its notes there, and a row that lacks
      its first or second cell then reads what is stored under "0" or
      "1". *)

From Stdlib Require Import ZArith Lia PrimFloat Ascii String.
From Stdlib Require Strings.Byte Uint63.
From stdpp Require Import base option list strings gmap pretty.

Open Scope string_scope.

(** ** JavaScript values and strings *)

Module Js.

(** Outcome of a call: a returned value or a thrown exception. *)
Inductive Result (A : Type) : Type :=
  | Ok (a : A)
  | Throw (message : string).
Arguments Ok {A} a.
Arguments Throw {A} message.

Definition is_ok {A} (r : Result A) : bool :=
  match r with Ok _ => true | Throw _ => false end.

(** White space and line terminators that [String.prototype.trim] strips,
    among the code units below 256: TAB, LF, VT, FF, CR, SP and NBSP. *)
Definition is_white (c : ascii) : bool :=
  let n := nat_of_ascii c in
  ((9 <=? n)%nat && (n <=? 13)%nat) || (n =? 32)%nat || (n =? 160)%nat.

Fixpoint trimStart (s : string) : string :=
  match s with
  | String c r => if is_white c then trimStart r else s
  | EmptyString => EmptyString
  end.

Fixpoint trimEnd (s : string) : string :=
  match s with
  | EmptyString => EmptyString
  | String c r =>
      match trimEnd r with
      | EmptyString => if is_white c then EmptyString else String c EmptyString
      | String _ _ as r' => String c r'
      end
  end.

(** [s.trim()] *)
Definition trim (s : string) : string := trimEnd (trimStart s).

(** A JSON scalar as [JSON.parse] yields it, or [undefined] for a property
    that is not there. *)
Inductive JsVal : Type :=
  | JUndefined
  | JNull
  | JBool (b : bool)
  | JNum (n : float)
  | JStr (s : string).

(** A row object: column name to cell. *)
Abbreviation Row := (gmap string JsVal).

(** [row.key] and [row[key]]: the cell, [undefined] when the key is absent. *)
Definition get (row : Row) (key : string) : JsVal :=
  default JUndefined (row !! key).

(** ToBoolean *)
Definition truthy (v : JsVal) : bool :=
  match v with
  | JUndefined | JNull => false
  | JBool b => b
  | JNum n => negb (is_zero n || is_nan n)
  | JStr s => negb (bool_decide (s = ""))
  end.

(** [a || b] *)
Definition or_else (a b : JsVal) : JsVal := if truthy a then a else b.

(** An array that sits on [Object.prototype], as far as its text depends
    on it: the number of objects it was created with, and the property
    keys assigned on it since, each with the length of the array
    assigned. *)
Record ArrayShape : Type := {
  holds : nat;
  written : list (string * nat)
}.

(** [String(a)] for an array [a] of [n] objects and nothing else: the
    text of each object is "[object Object]", and [join] puts commas
    between them. *)
Fixpoint objectsText (n : nat) : string :=
  match n with
  | O => ""
  | S m =>
      match m with
      | O => "[object Object]"
      | S _ => "[object Object]," ++ objectsText m
      end
  end.

(** What the program calls and Node.js provides. *)
Class Runtime : Type := {
  (** [crypto.scryptSync(password, salt, keylen)], the derived key *)
  scryptSync : string -> string -> nat -> list Byte.byte;
  scryptSync_length :
    forall password salt keylen,
      length (scryptSync password salt keylen) = keylen;
  (** [crypto.createHash('sha256').update(s).digest('hex')] *)
  sha256_hex : string -> string;
  (** [String(n)] for a number, also the property key a number indexes *)
  number_to_string : float -> string;
  (** [Number(s)] for a string *)
  string_to_number : string -> float;
  (** [s.toLocaleLowerCase('en-US')] *)
  toLocaleLowerCase : string -> string;
  (** [new Date(v).toISOString()]; [None] when the date is invalid and
      [toISOString] throws a RangeError *)
  date_to_iso : JsVal -> option string;
  (** [String(a)] for the array [a] that [Object.prototype] holds under
      a name and that has been assigned to since it was stored, given
      the arrays [Object.prototype] holds: [join] reads the elements of
      [a] and, where [a] has a hole, what [a] inherits under that index;
      the text is taken to be within the length the runtime allows *)
  array_to_string : gmap string ArrayShape -> string -> string
}.

Section Conversions.
Context `{Runtime}.

(** [String(v)] *)
Definition toString (v : JsVal) : string :=
  match v with
  | JUndefined => "undefined"
  | JNull => "null"
  | JBool true => "true"
  | JBool false => "false"
  | JNum n => number_to_string n
  | JStr s => s
  end.

(** [Number(v)] *)
Definition toNumber (v : JsVal) : float :=
  match v with
  | JUndefined => PrimFloat.nan
  | JNull => PrimFloat.zero
  | JBool true => PrimFloat.one
  | JBool false => PrimFloat.zero
  | JNum n => n
  | JStr s => string_to_number s
  end.

Definition cleanValue (value : JsVal) : string :=
  match value with
  | JUndefined | JNull => ""
  | _ => trim (toString value)
  end.

Definition normalizeProgramName (name : JsVal) : string :=
  toLocaleLowerCase (cleanValue name).

Definition hasValue (value : JsVal) : bool :=
  match value with
  | JUndefined | JNull => false
  | _ => negb (bool_decide (cleanValue value = ""))
  end.

End Conversions.

End Js.

(** ** Buffers: hexadecimal text and constant-time comparison *)

Module Buffer.
Import Js.

#[global] Instance byte_eq_dec : EqDecision Byte.byte := Byte.byte_eq_dec.

Definition hex_digit (n : N) : ascii :=
  match n with
  | 0 => "0" | 1 => "1" | 2 => "2" | 3 => "3" | 4 => "4" | 5 => "5"
  | 6 => "6" | 7 => "7" | 8 => "8" | 9 => "9" | 10 => "a" | 11 => "b"
  | 12 => "c" | 13 => "d" | 14 => "e" | _ => "f"
  end%N%char.

(** Value of a hexadecimal digit, upper or lower case. *)
Definition unhex (c : ascii) : option N :=
  let n := N_of_ascii c in
  if ((48 <=? n) && (n <=? 57))%N then Some (n - 48)%N
  else if ((97 <=? n) && (n <=? 102))%N then Some (n - 87)%N
  else if ((65 <=? n) && (n <=? 70))%N then Some (n - 55)%N
  else None.

Definition byte_of_N (n : N) : Byte.byte :=
  default Byte.x00 (Byte.of_N n).

(** [buf.toString('hex')]: two lower-case digits per byte. *)
Fixpoint toHex (buf : list Byte.byte) : string :=
  match buf with
  | [] => ""
  | b :: rest =>
      let n := Byte.to_N b in
      String (hex_digit (n / 16)) (String (hex_digit (n mod 16)) (toHex rest))
  end.

(** [Buffer.from(s, 'hex')]: one byte per pair of digits, up to the first
    pair that is not two hexadecimal digits; a last unpaired character is
    dropped. *)
Fixpoint fromHex (s : string) : list Byte.byte :=
  match s with
  | String a (String b rest) =>
      match unhex a, unhex b with
      | Some x, Some y => byte_of_N (16 * x + y) :: fromHex rest
      | _, _ => []
      end
  | _ => []
  end.

(** [crypto.timingSafeEqual(a, b)]: throws when the lengths differ. *)
Definition timingSafeEqual (a b : list Byte.byte) : Result bool :=
  if (length a =? length b)%nat then Ok (bool_decide (a = b))
  else Throw "Input buffers must have the same byte length".

(** Bit [k] (0 to 7) of a byte inverted. *)
Definition flip_bit_byte (k : nat) (b : Byte.byte) : Byte.byte :=
  byte_of_N (N.lxor (Byte.to_N b) (N.shiftl 1 (N.of_nat k))).

(** Bit [i] of a buffer inverted, bit [8 * j + k] being bit [k] of byte
    [j]; the buffer is unchanged when it has no such bit. *)
Fixpoint flip_bit (i : nat) (buf : list Byte.byte) : list Byte.byte :=
  match buf with
  | [] => []
  | b :: rest =>
      if (i <? 8)%nat then flip_bit_byte i b :: rest
      else b :: flip_bit (i - 8) rest
  end.

End Buffer.

(** ** Credential verifier *)

Module Verifier.
Import Js Buffer.

Section Verify.
Context `{Runtime}.

(** A string used as a condition: true unless empty. *)
Definition nonempty (s : string) : bool := negb (bool_decide (s = "")).

Definition hashWithSaltSHA256 (code salt : string) : string :=
  sha256_hex (salt ++ code).

(** [ALLOW_LEGACY_SHA] is the constant read from the environment at start. *)
Definition verifyPassword (ALLOW_LEGACY_SHA : bool) (row : Row) (code : string)
  : Result bool :=
  let scryptHash :=
    cleanValue (or_else (get row "PasswordHash") (get row "ScryptHash")) in
  let salt := cleanValue (get row "Salt") in
  if nonempty scryptHash && nonempty salt then
    let derived := toHex (scryptSync code salt 64) in
    timingSafeEqual (fromHex derived) (fromHex scryptHash)
  else if nonempty salt && nonempty (cleanValue (get row "Code")) then
    Ok (bool_decide (hashWithSaltSHA256 code salt = cleanValue (get row "Code")))
  else if ALLOW_LEGACY_SHA && nonempty (cleanValue (get row "Code")) then
    let legacy := sha256_hex code in
    Ok (bool_decide (legacy = cleanValue (get row "Code")))
  else Ok false.

(** The two constants [verifyPassword] computes first, named for the
    statements about it. *)
Definition scryptHashOf (row : Row) : string :=
  cleanValue (or_else (get row "PasswordHash") (get row "ScryptHash")).

Definition saltOf (row : Row) : string := cleanValue (get row "Salt").

End Verify.
End Verifier.

(** ** Session store *)

Module Sessions.
Import Js Buffer.

Record Session : Type := {
  employeeId : string;
  employeeName : string;
  expiresAt : Z
}.

Definition SESSION_TTL_MS : Z := 1000 * 60 * 60 * 8.

(** [random] is what [crypto.randomBytes(32)] returns and [now] what
    [Date.now()] returns. *)
Definition createSession (now : Z) (random : list Byte.byte)
    (employeeId employeeName : string) (sessions : gmap string Session)
  : string * gmap string Session :=
  let token := toHex random in
  (token,
   <[token := {| employeeId := employeeId; employeeName := employeeName;
                 expiresAt := now + SESSION_TTL_MS |}]> sessions).

(** [s.startsWith(p)] *)
Fixpoint startsWith (p s : string) : bool :=
  match p, s with
  | EmptyString, _ => true
  | String a p', String b s' => bool_decide (a = b) && startsWith p' s'
  | String _ _, EmptyString => false
  end.

(** [s.slice(n)] for [n >= 0] *)
Fixpoint slice (n : nat) (s : string) : string :=
  match n, s with
  | O, _ => s
  | S n', String _ s' => slice n' s'
  | S _, EmptyString => EmptyString
  end.

(** [authorization] is [req.headers.authorization]; the result pairs the
    token with the stored session, as [{ token, ...session }] does. *)
Definition getSession (now : Z) (authorization : option string)
    (sessions : gmap string Session)
  : option (string * Session) * gmap string Session :=
  let auth := default "" authorization in
  let token := if startsWith "Bearer " auth then slice 7 auth else "" in
  match sessions !! token with
  | None => (None, sessions)
  | Some session =>
      if (expiresAt session <? now)%Z then (None, delete token sessions)
      else (Some (token, session), sessions)
  end.

End Sessions.

(** ** Activity extraction *)

Module Activities.
Import Js.

Record Activity : Type := {
  date : string;
  program : string;
  programKey : string;
  startTime : JsVal;
  endTime : JsVal;
  manager : string;
  school : string;
  className : string;
  authority : string;
  meetingNumber : nat
}.

Section Extract.
Context `{Runtime}.

(** [row[`${name}${i}`] || (i === 1 ? row[name] : fallback)] *)
Definition column (row : Row) (name : string) (i : nat) (fallback : JsVal)
  : JsVal :=
  or_else (get row (name ++ pretty i))
          (if (i =? 1)%nat then get row name else fallback).

(** The two fields the loop tests at index [i]. *)
Definition dateFieldOf (row : Row) (i : nat) : JsVal :=
  column row "Date" i JUndefined.

Definition cancelFieldOf (row : Row) (i : nat) : JsVal :=
  column row "Cancel" i JUndefined.

(** The object pushed at index [i], [iso] being the date as
    [toISOString] gives it. *)
Definition activityOf (row : Row) (i : nat) (iso : string) : Activity :=
  let program := cleanValue (column row "Program" i (JStr "")) in
  {| date := iso;
     program := program;
     programKey := normalizeProgramName (JStr program);
     startTime := column row "StartTime" i (JStr "");
     endTime := column row "EndTime" i (JStr "");
     manager := cleanValue (column row "Manager" i (JStr ""));
     school := cleanValue (column row "School" i (JStr ""));
     className := cleanValue (column row "Class" i (JStr ""));
     authority := cleanValue (column row "Authority" i (JStr ""));
     meetingNumber := i |}.

(** The body of the loop of [extractActivities] at index [i]: the list with
    what this round pushes, or the exception of [toISOString]. *)
Definition extractAt (row : Row) (i : nat) (activities : list Activity)
  : Result (list Activity) :=
  let dateField := dateFieldOf row i in
  if negb (hasValue dateField) then Ok activities
  else
    let cancelField := cancelFieldOf row i in
    if hasValue cancelField then Ok activities
    else
      match date_to_iso dateField with
      | None => Throw "Invalid time value"
      | Some iso => Ok (activities ++ [activityOf row i iso])%list
      end.

(** [for (let i = from; i < from + rounds; i++)], stopped by an exception. *)
Fixpoint extractLoop (row : Row) (i rounds : nat) (activities : list Activity)
  : Result (list Activity) :=
  match rounds with
  | O => Ok activities
  | S rounds' =>
      match extractAt row i activities with
      | Ok activities' => extractLoop row (S i) rounds' activities'
      | Throw e => Throw e
      end
  end.

Definition extractActivities (row : Row) : Result (list Activity) :=
  extractLoop row 1 16 [].

(** The test that lets index [i] through to the push: a date that has a
    value and no cancellation that has one. *)
Definition emitted (row : Row) (i : nat) : bool :=
  hasValue (dateFieldOf row i) && negb (hasValue (cancelFieldOf row i)).

(** What index [i] adds to the list when its date parses. *)
Definition pushed (row : Row) (i : nat) : list Activity :=
  if emitted row i
  then match date_to_iso (dateFieldOf row i) with
       | Some iso => [activityOf row i iso]
       | None => []
       end
  else [].

End Extract.
End Activities.

(** ** Program rules and global messages *)

Module Rules.
Import Js Verifier.

Record Note : Type := { type : string; text : string }.

(** Names [Object.prototype] has from the start; [programRules] is an object
    literal and inherits them, each with a value that counts as true. *)
Definition OBJECT_PROTOTYPE_NAMES : list string :=
  [ "constructor"; "__defineGetter__"; "__defineSetter__"; "hasOwnProperty";
    "__lookupGetter__"; "__lookupSetter__"; "isPrototypeOf";
    "propertyIsEnumerable"; "toString"; "valueOf"; "__proto__";
    "toLocaleString" ].

(** An array that an earlier row has stored on [Object.prototype] by
    [programRules["__proto__"][meetingNum] = notes]: the notes it was
    created with, and the assignments [array[meetingNum] = notes] that
    rows named as the array's property have made on it since. *)
Record ProtoArray : Type := {
  created : list Note;
  writes : list (string * list Note)
}.

Definition shapeOf (array : ProtoArray) : ArrayShape :=
  {| holds := length (created array);
     written := map (fun w => (w.1, length w.2)) (writes array) |}.

(** The table under construction: the own properties of [programRules], and
    the properties that rows have added to [Object.prototype] by writing
    through [programRules["__proto__"]], each an array of notes. *)
Record RuleHeap : Type := {
  own : gmap string (gmap string (list Note));
  prototypeArrays : gmap string ProtoArray
}.

Section Rows.
Context `{Runtime}.

(** [row[j]] for an index [j] of the row. *)
Definition cell (row : list JsVal) (j : nat) : JsVal :=
  default JUndefined (row !! j).

(** [String(array)] for the array under [name] on [Object.prototype]. *)
Definition arrayText (prototype : gmap string ProtoArray) (name : string)
    (array : ProtoArray) : string :=
  match writes array with
  | [] => objectsText (length (created array))
  | _ :: _ => array_to_string (shapeOf <$> prototype) name
  end.

(** [row[j]] for any [j]: the cell; where the row has no cell [j], the
    array that the row inherits under that index from [Object.prototype],
    or [undefined] when there is none. The loop passes [row[0]] to
    [cleanValue] and [row[1]] to [Number]; for an array [a] these give
    [String(a).trim()] and [Number(String(a))], so the string [String(a)]
    stands for the array here. *)
Definition cellIn (prototype : gmap string ProtoArray) (row : list JsVal)
    (j : nat) : JsVal :=
  match row !! j with
  | Some v => v
  | None =>
      match prototype !! pretty j with
      | Some array => JStr (arrayText prototype (pretty j) array)
      | None => JUndefined
      end
  end.

(** [for (let j = ..; j + 1 < row.length; j += 2)]; [rounds] bounds the
    number of rounds, [length row] of them are enough. *)
Fixpoint notesLoop (row : list JsVal) (j rounds : nat) (notes : list Note)
  : list Note :=
  match rounds with
  | O => notes
  | S rounds' =>
      if (j + 1 <? length row)%nat then
        let type := cleanValue (cell row j) in
        let text := cleanValue (cell row (j + 1)) in
        notesLoop row (j + 2) rounds'
          (if nonempty type && nonempty text
           then (notes ++ [{| type := type; text := text |}])%list
           else notes)
      else notes
  end.

Definition notesOfRow (row : list JsVal) : list Note :=
  notesLoop row 2 (length row) [].

(** Does [programRules[programKey]] find an inherited property? *)
Definition inheritsName (heap : RuleHeap) (programKey : string) : bool :=
  bool_decide (programKey ∈ OBJECT_PROTOTYPE_NAMES)
  || bool_decide (programKey ∈ dom (prototypeArrays heap)).

(** One round of the loop over [programRows]: [r] is [programRows[i]],
    [None] when it is null. *)
Definition ruleStep (heap : RuleHeap) (r : option (list JsVal)) : RuleHeap :=
  let row := default [] r in
  let programKey := normalizeProgramName (cellIn (prototypeArrays heap) row 0) in
  let meetingNum := toNumber (cellIn (prototypeArrays heap) row 1) in
  if negb (nonempty programKey) || negb (is_finite meetingNum) then heap
  else
    let notes := notesOfRow row in
    let meetingKey := number_to_string meetingNum in
    match own heap !! programKey with
    | Some rules =>
        {| own := <[programKey := <[meetingKey := notes]> rules]> (own heap);
           prototypeArrays := prototypeArrays heap |}
    | None =>
        if inheritsName heap programKey then
          (* the inherited value stands for [programRules[programKey]]: no own
             property is made and the notes are stored on that value *)
          if bool_decide (programKey = "__proto__") then
            (* [Object.prototype[meetingNum] = notes] *)
            {| own := own heap;
               prototypeArrays :=
                 <[meetingKey := {| created := notes; writes := [] |}]>
                   (prototypeArrays heap) |}
          else
            match prototypeArrays heap !! programKey with
            | Some array =>
                (* [array[meetingNum] = notes] on an array stored before *)
                {| own := own heap;
                   prototypeArrays :=
                     <[programKey :=
                         {| created := created array;
                            writes := (writes array
                                       ++ [(meetingKey, notes)])%list |}]>
                       (prototypeArrays heap) |}
            | None =>
                (* a function of [Object.prototype] takes the property *)
                heap
            end
        else
          {| own := <[programKey := {[ meetingKey := notes ]}]> (own heap);
             prototypeArrays := prototypeArrays heap |}
    end.

(** [for (let i = 1; i < programRows.length; i++)] starting from
    [programRules = {}], with [prototype0] on [Object.prototype]. *)
Definition loadRules (prototype0 : gmap string ProtoArray)
    (programRows : list (option (list JsVal))) : RuleHeap :=
  foldl ruleStep {| own := ∅; prototypeArrays := prototype0 |}
        (drop 1 programRows).

End Rows.

(** The reading of the specification: the cells after the second one taken
    two by two, a pair giving a note when both members are not empty once
    trimmed. *)
Section Spec.
Context `{Runtime}.

Fixpoint pairedNotes (cells : list JsVal) : list Note :=
  match cells with
  | t :: x :: rest =>
      if nonempty (cleanValue t) && nonempty (cleanValue x)
      then {| type := cleanValue t; text := cleanValue x |} :: pairedNotes rest
      else pairedNotes rest
  | _ => []
  end.

End Spec.
End Rules.

Module Messages.
Import Js Verifier.

Record Message : Type := { message : string; type : string }.

Section Load.
Context `{Runtime}.

Definition loadMessages (globalRows : list Row) : list Message :=
  map (fun r =>
         {| message := cleanValue (get r "Message");
            type := if nonempty (cleanValue (get r "Type"))
                    then cleanValue (get r "Type") else "Info" |})
      (List.filter (fun r => nonempty (cleanValue (get r "Message")))
                   globalRows).

End Load.
End Messages.

(** ** The data snapshot and its reload *)

Module Loader.
Import Js Buffer Verifier.

Record DataStore : Type := {
  instructors : list Row;
  programRules : gmap string (gmap string (list Rules.Note));
  globalMessages : list Messages.Message
}.

(** The global state of the process. *)
Record World : Type := {
  dataStore : DataStore;
  sessions : gmap string Sessions.Session;
  objectPrototype : gmap string Rules.ProtoArray
}.

(** What the outside gives one run of [loadData]: whether the three data
    files are there, and the outcome of [parseXlsx] on each of them, rows as
    objects for the instructors and the messages, rows as arrays for the
    program rules. *)
Record Sheets : Type := {
  dataFiles : Result unit;
  instructor : Result (list Row);
  programRulesRows : Result (list (option (list JsVal)));
  globalMessagesRows : Result (list Row)
}.

(** The three parses of one run of [loadData] all succeed. *)
Definition all_parsed (sheets : Sheets) : bool :=
  is_ok (instructor sheets) && is_ok (programRulesRows sheets)
  && is_ok (globalMessagesRows sheets).

Section Load.
Context `{Runtime}.

(** The function mapped over the instructor rows. *)
Definition normalizeInstructor (row : Row) : Row :=
  let employeeId := cleanValue (get row "EmployeeID") in
  let salt :=
    if nonempty (cleanValue (get row "Salt")) then cleanValue (get row "Salt")
    else if nonempty employeeId then "emp-" ++ employeeId
    else "default-salt" in
  let passwordHash :=
    cleanValue (or_else (get row "PasswordHash") (get row "ScryptHash")) in
  let normalized := <["Salt" := JStr salt]> row in
  if nonempty passwordHash then
    <["PasswordHash" := JStr passwordHash]> normalized
  else
    let codeValue := cleanValue (get row "Code") in
    if nonempty codeValue then
      delete "Code"
        (<["PasswordHash" := JStr (toHex (scryptSync codeValue salt 64))]>
           normalized)
    else normalized.

Definition loadData (sheets : Sheets) (w : World) : Result unit * World :=
  match instructor sheets with
  | Throw e => (Throw e, w)
  | Ok rows =>
      let instructors := map normalizeInstructor rows in
      match programRulesRows sheets with
      | Throw e => (Throw e, w)
      | Ok programRows =>
          match globalMessagesRows sheets with
          | Throw e => (Throw e, w)
          | Ok globalRows =>
              let heap := Rules.loadRules (objectPrototype w) programRows in
              let globalMessages := Messages.loadMessages globalRows in
              (Ok tt,
               {| dataStore :=
                    {| instructors := instructors;
                       programRules := Rules.own heap;
                       globalMessages := globalMessages |};
                  sessions := sessions w;
                  objectPrototype := Rules.prototypeArrays heap |})
          end
      end
  end.

(** The first load of [bootstrap]: an exception ends the start. *)
Definition bootstrap (sheets : Sheets) (w : World) : Result unit * World :=
  match dataFiles sheets with
  | Throw e => (Throw e, w)
  | Ok _ => loadData sheets w
  end.

(** One tick of the timer of [bootstrap]: [loadData().catch(() => {})]. *)
Definition reload (sheets : Sheets) (w : World) : World :=
  snd (loadData sheets w).

End Load.
End Loader.

(** ** The request handler *)

Module Server.
Import Js Buffer Verifier Loader.

(** What [JSON.parse] made of the body: [null], or a value whose properties
    are read; a value that is not an object has none. *)
Inductive Body : Type :=
  | BodyNull
  | BodyObject (fields : Row).

Record Request : Type := {
  method : string;
  url : string;
  authorization : option string;
  (** the outcome of [parseJsonBody] *)
  body : Result Body
}.

Inductive Payload : Type :=
  | Text (text : string)
  | Error (error : string) (detail : option string)
  | Login (token employeeName : string)
  | Schedule (employeeName : string)
             (activities : list Activities.Activity)
             (programRules : gmap string (gmap string (list Rules.Note)))
             (globalMessages : list Messages.Message)
  | File (file : string)
  | Empty.

Record Response : Type := { status : nat; payload : Payload }.

(** What one request reads from outside the process. *)
Record Env : Type := {
  now : Z;
  randomBytes : list Byte.byte;
  existsSync : string -> bool
}.

Definition sendJson (status : nat) (payload : Payload) : Response :=
  {| status := status; payload := payload |}.

Definition sendText (status : nat) (text : string) : Response :=
  {| status := status; payload := Text text |}.

Definition serveFile (env : Env) (file : string) : Response :=
  if negb (existsSync env file) then sendText 404 "Not found"
  else {| status := 200; payload := File file |}.

Definition routes : list (string * string) :=
  [ ("/", "index.html"); ("/sw.js", "sw.js");
    ("/manifest.json", "manifest.json");
    ("/hash-generator.html", "hash-generator.html");
    ("/logo.png", "logo.png"); ("/icon-192.png", "icon-192.png");
    ("/icon-512.png", "icon-512.png") ].

Definition with_sessions (w : World) (s : gmap string Sessions.Session)
  : World :=
  {| dataStore := dataStore w; sessions := s;
     objectPrototype := objectPrototype w |}.

Section Handler.
Context `{Runtime}.
Variable ALLOW_LEGACY_SHA : bool.

(** [cleanValue(item.EmployeeID)] *)
Definition employeeIdOf (item : Row) : string :=
  cleanValue (get item "EmployeeID").

(** [dataStore.instructors.find(item => cleanValue(item.EmployeeID) === id)] *)
Definition findInstructor (w : World) (employeeId : string) : option Row :=
  List.find (fun item => bool_decide (employeeIdOf item = employeeId))
            (instructors (dataStore w)).

Definition login (env : Env) (req : Request) (w : World)
  : Result Response * World :=
  match body req with
  | Throw e => (Throw e, w)
  | Ok BodyNull =>
      (Throw "Cannot read properties of null (reading 'employeeId')", w)
  | Ok (BodyObject fields) =>
      let employeeId := cleanValue (get fields "employeeId") in
      let code := cleanValue (get fields "code") in
      if negb (nonempty employeeId) || negb (nonempty code) then
        (Ok (sendJson 400 (Error "Missing credentials" None)), w)
      else
        match findInstructor w employeeId with
        | None => (Ok (sendJson 401 (Error "Invalid credentials" None)), w)
        | Some row =>
            match verifyPassword ALLOW_LEGACY_SHA row code with
            | Throw e => (Throw e, w)
            | Ok false =>
                (Ok (sendJson 401 (Error "Invalid credentials" None)), w)
            | Ok true =>
                let employeeName := cleanValue (get row "Employee") in
                let '(token, sessions') :=
                  Sessions.createSession (now env) (randomBytes env)
                    employeeId employeeName (sessions w) in
                (Ok (sendJson 200 (Login token employeeName)),
                 with_sessions w sessions')
            end
        end
  end.

Definition schedule (env : Env) (req : Request) (w : World)
  : Result Response * World :=
  let '(session, sessions') :=
    Sessions.getSession (now env) (authorization req) (sessions w) in
  let w' := with_sessions w sessions' in
  match session with
  | None => (Ok (sendJson 401 (Error "Unauthorized" None)), w')
  | Some (_, session) =>
      match findInstructor w' (Sessions.employeeId session) with
      | None => (Ok (sendJson 404 (Error "Employee not found" None)), w')
      | Some row =>
          match Activities.extractActivities row with
          | Throw e => (Throw e, w')
          | Ok activities =>
              (Ok (sendJson 200
                     (Schedule (cleanValue (get row "Employee")) activities
                        (programRules (dataStore w'))
                        (globalMessages (dataStore w')))),
               w')
          end
      end
  end.

Definition logout (env : Env) (req : Request) (w : World)
  : Result Response * World :=
  let '(session, sessions') :=
    Sessions.getSession (now env) (authorization req) (sessions w) in
  match session with
  | None =>
      (Ok (sendJson 401 (Error "Unauthorized" None)), with_sessions w sessions')
  | Some (token, _) =>
      (Ok {| status := 204; payload := Empty |},
       with_sessions w (delete token sessions'))
  end.

(** The body of the [try] block of the handler. *)
Definition dispatch (env : Env) (req : Request) (w : World)
  : Result Response * World :=
  if bool_decide (url req ∈ ["/InstructorData.xlsx"; "/ProgramRules.xlsx";
                             "/GlobalMessages.xlsx"])
  then (Ok (sendText 403 "Direct access to Excel files is forbidden."), w)
  else if bool_decide (method req = "POST")
          && bool_decide (url req = "/api/login")
  then login env req w
  else if bool_decide (method req = "GET")
          && bool_decide (url req = "/api/me/schedule")
  then schedule env req w
  else if bool_decide (method req = "POST")
          && bool_decide (url req = "/api/logout")
  then logout env req w
  else
    match List.find (fun r => bool_decide (fst r = url req)) routes with
    | Some (_, file) => (Ok (serveFile env file), w)
    | None => (Ok (sendText 404 "Not found"), w)
    end.

(** The handler: an exception of the [try] block becomes a 500 answer. *)
Definition server (env : Env) (req : Request) (w : World) : Response * World :=
  match dispatch env req w with
  | (Ok response, w') => (response, w')
  | (Throw e, w') => (sendJson 500 (Error "Server error" (Some e)), w')
  end.

End Handler.
End Server.

(** ** A small runtime and data set to run the definitions on *)

Module Demo.
Import Js Buffer.

Definition char_sum (s : string) : N :=
  foldr (fun c acc => (N_of_ascii c + acc)%N) 0%N (list_ascii_of_string s).

(** A stand-in for scrypt: [keylen] bytes that depend on both arguments. *)
Definition demo_scrypt (password salt : string) (keylen : nat)
  : list Byte.byte :=
  map (fun i => byte_of_N ((char_sum password * 7 + char_sum salt * 3
                            + N.of_nat i) mod 256)%N)
      (seq 0 keylen).

Definition demo_sha256 (s : string) : string :=
  toHex (demo_scrypt s "sha256" 32).

Definition lower (c : ascii) : ascii :=
  let n := N_of_ascii c in
  if ((65 <=? n) && (n <=? 90))%N then ascii_of_N (n + 32) else c.

Fixpoint demo_lower (s : string) : string :=
  match s with
  | EmptyString => EmptyString
  | String c r => String (lower c) (demo_lower r)
  end.

(** Decimal digits only; the empty string is 0 and anything else is NaN. *)
Fixpoint digits_value (s : string) (acc : Z) : option Z :=
  match s with
  | EmptyString => Some acc
  | String c r =>
      let n := Z.of_N (N_of_ascii c) in
      if ((48 <=? n) && (n <=? 57))%Z then digits_value r (10 * acc + (n - 48))
      else None
  end.

Definition demo_number (s : string) : float :=
  match digits_value (trim s) 0 with
  | Some z => PrimFloat.of_uint63 (Uint63.of_Z z)
  | None => PrimFloat.nan
  end.

(** Prints the integers 0 to 99; every other number as ["NaN"]. *)
Definition demo_number_to_string (x : float) : string :=
  match List.find (fun k => PrimFloat.eqb x
                              (PrimFloat.of_uint63 (Uint63.of_Z (Z.of_nat k))))
                  (seq 0 100) with
  | Some k => pretty k
  | None => "NaN"
  end.

(** Accepts a string of ten characters that starts with a digit, as
    ["2026-03-01"]. *)
Definition demo_date (v : JsVal) : option string :=
  match v with
  | JStr s =>
      match s with
      | String c _ =>
          if bool_decide (String.length s = 10)
             && bool_decide (is_Some (unhex c)) && negb (is_white c)
          then Some (s ++ "T00:00:00.000Z") else None
      | EmptyString => None
      end
  | _ => None
  end.

(** A stand-in for the text of an array that has been written into. Its
    elements are the objects it was created with, then, for a key that is
    an index, the array assigned under it, with holes up to that index. *)
Inductive Slot : Type :=
  | Hole
  | Object
  | Nested (n : nat).

(** A key that is an array index: decimal digits without a leading zero,
    below 2^32 - 1. *)
Definition index_of (key : string) : option nat :=
  match key with
  | EmptyString => None
  | String c rest =>
      if bool_decide (c = "0"%char) && negb (bool_decide (rest = ""))
      then None
      else match digits_value key 0 with
           | Some z => if (z <? 4294967295)%Z then Some (Z.to_nat z) else None
           | None => None
           end
  end.

Definition assign (slots : list Slot) (w : string * nat) : list Slot :=
  match index_of w.1 with
  | Some i =>
      if (i <? length slots)%nat then <[i := Nested w.2]> slots
      else (slots ++ replicate (i - length slots) Hole ++ [Nested w.2])%list
  | None => slots
  end.

Definition slotsOf (shape : ArrayShape) : list Slot :=
  foldl assign (replicate (holds shape) Object) (written shape).

(** [join]: a hole reads what the array inherits under its index, an
    array of [Object.prototype] again, and an array that is being joined
    already gives the empty string. *)
Fixpoint demo_join (fuel : nat) (prototype : gmap string ArrayShape)
    (joining : list string) (name : string) : string :=
  match fuel with
  | O => ""
  | S fuel' =>
      match prototype !! name with
      | None => ""
      | Some shape =>
          if bool_decide (name ∈ joining) then ""
          else
            String.concat ","
              (imap (fun i slot =>
                       match slot with
                       | Object => "[object Object]"
                       | Nested n => objectsText n
                       | Hole => demo_join fuel' prototype (name :: joining)
                                           (pretty i)
                       end)
                    (slotsOf shape))
      end
  end.

Definition demo_array_text (prototype : gmap string ArrayShape)
    (name : string) : string :=
  demo_join (S (size prototype)) prototype [] name.

#[local] Instance demo_runtime : Runtime := {|
  scryptSync := demo_scrypt;
  scryptSync_length := fun password salt keylen =>
    eq_trans (length_map _ (seq 0 keylen)) (length_seq keylen 0);
  sha256_hex := demo_sha256;
  number_to_string := demo_number_to_string;
  string_to_number := demo_number;
  toLocaleLowerCase := demo_lower;
  date_to_iso := demo_date;
  array_to_string := demo_array_text
|}.

(** Sample data. *)

Definition demo_random : list Byte.byte := demo_scrypt "seed" "token" 32.

Definition dana : Row :=
  list_to_map
    [ ("EmployeeID", JStr "1001"); ("Employee", JStr " Dana ");
      ("Salt", JStr "s1");
      ("PasswordHash", JStr (toHex (demo_scrypt "abc123" "s1" 64)));
      ("Date", JStr "2026-03-01"); ("Program", JStr " Robotics ");
      ("Date2", JStr "2026-03-08"); ("Cancel2", JStr "x");
      ("Date5", JStr "2026-03-29"); ("Program5", JStr "Chess") ].

(** Same employee id as [dana], with spaces around it. *)
Definition dan : Row :=
  list_to_map
    [ ("EmployeeID", JStr " 1001 "); ("Employee", JStr "Dan");
      ("PasswordHash", JStr (toHex (demo_scrypt "xyz" "emp-1001" 64))) ].

(** A Code column instead of a hash, and a date that is no date. *)
Definition noam : Row :=
  list_to_map
    [ ("EmployeeID", JStr "1002"); ("Employee", JStr "Noam");
      ("Code", JStr "777777"); ("Date1", JStr "soon") ].

(** A date that is no date in a cancelled field-group, and a date in the
    next one. *)
Definition cancelled_soon : Row :=
  list_to_map
    [ ("EmployeeID", JStr "1007"); ("Date1", JStr "soon");
      ("Cancel1", JStr "x"); ("Date2", JStr "2026-03-08") ].

(** A stored hash of three characters: it decodes to one byte. *)
Definition short_hash : Row :=
  list_to_map
    [ ("EmployeeID", JStr "1003"); ("Employee", JStr "Gil");
      ("Salt", JStr "s3"); ("PasswordHash", JStr "abc") ].

(** No hash and no Code. *)
Definition bare : Row :=
  list_to_map [ ("EmployeeID", JStr "1004"); ("Salt", JStr "s4") ].

Definition rule_rows : list (option (list JsVal)) :=
  [ Some [JStr "Program"; JStr "Meeting"; JStr "Type"; JStr "Text"];
    Some [JStr " Robotics "; JNum 1%float; JStr "Bring"; JStr " kit ";
          JStr ""; JStr "dropped"; JStr "Tip"; JStr "smile"; JStr "odd"];
    Some [JStr "Robotics"; JStr "first"; JStr "Bring"; JStr "nothing"];
    None;
    Some [JStr "Chess"; JStr "2"; JStr "Tip"; JStr "clock"] ].

Definition message_rows : list Row :=
  [ list_to_map [ ("Message", JStr " Welcome "); ("Type", JStr "Alert") ];
    list_to_map [ ("Message", JStr "  ") ];
    list_to_map [ ("Message", JStr "Closed on Friday") ] ].

Definition sheets_ok : Loader.Sheets :=
  {| Loader.dataFiles := Ok tt;
     Loader.instructor := Ok [dana; noam; short_hash; bare];
     Loader.programRulesRows := Ok rule_rows;
     Loader.globalMessagesRows := Ok message_rows |}.

(** The same instructors sheet with a second row for employee 1001. *)
Definition sheets_twice : Loader.Sheets :=
  {| Loader.dataFiles := Ok tt;
     Loader.instructor := Ok [dana; dan];
     Loader.programRulesRows := Ok rule_rows;
     Loader.globalMessagesRows := Ok message_rows |}.

(** The third parse fails. *)
Definition sheets_broken : Loader.Sheets :=
  {| Loader.dataFiles := Ok tt;
     Loader.instructor := Ok [dan];
     Loader.programRulesRows := Ok [];
     Loader.globalMessagesRows := Throw "Failed to parse xlsx" |}.

Definition world0 : Loader.World :=
  {| Loader.dataStore :=
       {| Loader.instructors := []; Loader.programRules := ∅;
          Loader.globalMessages := [] |};
     Loader.sessions := ∅;
     Loader.objectPrototype := ∅ |}.

(** The world after the first load of [sheets_ok]. *)
Definition world1 : Loader.World := snd (Loader.loadData sheets_ok world0).

Definition env1 : Server.Env :=
  {| Server.now := 1000; Server.randomBytes := demo_random;
     Server.existsSync := fun _ => true |}.

Definition login_request (employeeId code : string) : Server.Request :=
  {| Server.method := "POST"; Server.url := "/api/login";
     Server.authorization := None;
     Server.body :=
       Ok (Server.BodyObject
             (list_to_map [ ("employeeId", JStr employeeId);
                            ("code", JStr code) ])) |}.

Definition schedule_request (token : string) : Server.Request :=
  {| Server.method := "GET"; Server.url := "/api/me/schedule";
     Server.authorization := Some ("Bearer " ++ token);
     Server.body := Ok (Server.BodyObject ∅) |}.

(** The world after employee 1002 has logged in at [env1]. *)
Definition world2 : Loader.World :=
  snd (Server.server false env1 (login_request "1002" "777777") world1).

Definition noam_session : Sessions.Session :=
  {| Sessions.employeeId := "1002"; Sessions.employeeName := "Noam";
     Sessions.expiresAt := 1000 + Sessions.SESSION_TTL_MS |}.

End Demo.

(** ** Reading the rule table, runs of the process, the service worker *)

Module RuleTable.
Import Js Verifier Rules.

(** The notes the table holds under a program key and a meeting key, as a
    client reads [programRules[programKey][meetingKey]] in the answer of
    the schedule request, which carries the own properties only. *)
Definition notesAt (heap : RuleHeap) (programKey meetingKey : string)
  : option (list Note) :=
  own heap !! programKey ≫= fun rules => rules !! meetingKey.

Section Rows.
Context `{Runtime}.

(** The values the loop computes first for [programRows[i]], with
    [prototype] on [Object.prototype]. *)
Definition rowKey (prototype : gmap string ProtoArray)
    (r : option (list JsVal)) : string :=
  normalizeProgramName (cellIn prototype (default [] r) 0).

Definition rowMeeting (prototype : gmap string ProtoArray)
    (r : option (list JsVal)) : float :=
  toNumber (cellIn prototype (default [] r) 1).

(** The test of the [continue]. *)
Definition skipped (prototype : gmap string ProtoArray)
    (r : option (list JsVal)) : bool :=
  negb (nonempty (rowKey prototype r))
  || negb (is_finite (rowMeeting prototype r)).

(** The rows [rows], taken one after the other from [heap] on, are each
    skipped or for another program or meeting than [programKey] and
    [meetingKey]. *)
Fixpoint elsewhere (heap : RuleHeap) (programKey meetingKey : string)
    (rows : list (option (list JsVal))) : bool :=
  match rows with
  | [] => true
  | r :: rest =>
      (skipped (prototypeArrays heap) r
       || negb (bool_decide (rowKey (prototypeArrays heap) r = programKey))
       || negb (bool_decide
                  (number_to_string (rowMeeting (prototypeArrays heap) r)
                   = meetingKey)))
      && elsewhere (ruleStep heap r) programKey meetingKey rest
  end.

End Rows.
End RuleTable.

Module Process.
Import Js Loader Server.

(** What happens to the process after its start: a request is handled, or
    the timer fires and [loadData] runs on what the files then hold. The
    handlers read and write the global state in one piece, after the body
    of the request has been read, and [loadData] has no point where it
    waits, so the events follow each other. *)
Inductive Event : Type :=
  | Request (env : Env) (req : Server.Request)
  | Tick (sheets : Sheets).

Section Run.
Context `{Runtime}.
Variable ALLOW_LEGACY_SHA : bool.

Definition step (w : World) (ev : Event) : World :=
  match ev with
  | Request env req => snd (server ALLOW_LEGACY_SHA env req w)
  | Tick sheets => reload sheets w
  end.

Definition run (w : World) (events : list Event) : World :=
  foldl step w events.

(** The answer to a request made after the events. *)
Definition answer (w : World) (events : list Event) (env : Env)
    (req : Server.Request) : Response :=
  fst (server ALLOW_LEGACY_SHA env req (run w events)).

End Run.
End Process.

Module ServiceWorker.
Import Js.

Definition SW_VERSION : string := "v2".
Definition APP_CACHE : string := "weeklyplanner-" ++ SW_VERSION.

(** The filter of the activate handler:
    [key.startsWith('weeklyplanner-') && key !== APP_CACHE]. *)
Definition stale (key : string) : bool :=
  Sessions.startsWith "weeklyplanner-" key
  && negb (bool_decide (key = APP_CACHE)).

(** The activate handler on the cache storage, a map from cache names to
    caches: [caches.delete(key)] for every name of [caches.keys()] that the
    filter keeps. *)
Definition activate {C : Type} (caches : gmap string C) : gmap string C :=
  foldr (fun key storage => delete key storage) caches
        (List.filter stale (map fst (map_to_list caches))).

End ServiceWorker.

Module Samples.
Import Js Buffer Demo.

(** A row with a Code column only, as the loader meets it. *)
Definition code_only : Row :=
  list_to_map [ ("EmployeeID", JStr "1005"); ("Code", JStr " 424242 ") ].

(** A hash, a salt and a Code column together. *)
Definition hash_and_code : Row := <["Code" := JStr "anything"]> dana.

(** Cells that are there and count as false. *)
Definition falsy_cells : Row :=
  list_to_map
    [ ("EmployeeID", JStr "1006");
      ("Date2", JStr "2026-04-01"); ("Cancel2", JBool false);
      ("Date3", JBool false); ("Date4", JStr "2026-04-03") ].

(** Rule rows with a program named as a property of [Object.prototype],
    and two rows for one program and meeting. *)
Definition rule_rows_clash : list (option (list JsVal)) :=
  [ Some [JStr "Program"; JStr "Meeting"];
    Some [JStr "constructor"; JStr "1"; JStr "Tip"; JStr "lost"];
    Some [JStr "Chess"; JStr "2"; JStr "Tip"; JStr "old"];
    Some [JStr "chess "; JStr "2"; JStr "Tip"; JStr "new"];
    Some [JStr "Chess"; JStr "3"; JStr "Tip"; JStr "other"] ].

(** Rule rows with a program named "__proto__", whose notes go to
    [Object.prototype] under "1", and rows without a second cell after
    it. *)
Definition rule_rows_inherited : list (option (list JsVal)) :=
  [ Some [JStr "Program"; JStr "Meeting"];
    Some [JStr "Short"];
    Some [JStr "__proto__"; JNum 1%float];
    Some [JStr "Chess"; JNum 0%float; JStr "Tip"; JStr "old"];
    Some [JStr "Chess"] ].

(** Rule rows with a program named "1" after the row named "__proto__":
    its notes go into the array stored under "1". *)
Definition rule_rows_written : list (option (list JsVal)) :=
  [ Some [JStr "Program"; JStr "Meeting"];
    Some [JStr "__proto__"; JNum 1%float];
    Some [JStr "1"; JNum 0%float; JStr "Tip"; JStr "x"];
    Some [JStr "Chess"] ].

(** The sheet after employee 1002 has left. *)
Definition sheets_without_noam : Loader.Sheets :=
  {| Loader.dataFiles := Ok tt;
     Loader.instructor := Ok [dana];
     Loader.programRulesRows := Ok rule_rows;
     Loader.globalMessagesRows := Ok message_rows |}.

Definition env2 : Server.Env :=
  {| Server.now := 5000; Server.randomBytes := demo_scrypt "other" "token" 32;
     Server.existsSync := fun _ => true |}.

Definition logout_request (token : string) : Server.Request :=
  {| Server.method := "POST"; Server.url := "/api/logout";
     Server.authorization := Some ("Bearer " ++ token);
     Server.body := Ok (Server.BodyObject ∅) |}.

(** A request for a data file, with a method and a body of no use. *)
Definition xlsx_request : Server.Request :=
  {| Server.method := "DELETE"; Server.url := "/InstructorData.xlsx";
     Server.authorization := None; Server.body := Throw "Unexpected token" |}.

Definition static_request : Server.Request :=
  {| Server.method := "POST"; Server.url := "/manifest.json";
     Server.authorization := None; Server.body := Ok Server.BodyNull |}.

Definition caches_before : gmap string nat :=
  list_to_map [ ("weeklyplanner-v1", 1); ("weeklyplanner-v2", 2);
                ("other-app", 3); ("weeklyplanner-", 4) ].

End Samples.

Module RuleInvariant.
Import Js Rules.

(** The keys of the table are not empty and are no inherited names, and the
    names [names], on [Object.prototype] before, are still there. *)
Definition clean_keys (names : gset string) (heap : RuleHeap) : Prop :=
  (names ⊆ dom (prototypeArrays heap))
  /\ forall key, is_Some (own heap !! key) ->
       key <> "" /\ (key ∉ OBJECT_PROTOTYPE_NAMES) /\ (key ∉ names).

End RuleInvariant.

Module ServerInvariant.
Import Js Loader Server.

(** The status codes the handler uses. *)
Definition STATUSES : list nat := [200; 204; 400; 401; 403; 404; 500].

(** Every session of the store has a token and an employee id that are
    not empty. *)
Definition well_keyed (w : World) : Prop :=
  forall token session,
    sessions w !! token = Some session ->
    token <> "" /\ Sessions.employeeId session <> "".

(** An event that cannot replace the snapshot: a request, or a tick of the
    timer with a parse that fails. *)
Definition keeps_snapshot (ev : Process.Event) : Prop :=
  match ev with
  | Process.Request _ _ => True
  | Process.Tick sheets => all_parsed sheets = false
  end.

(** A request is handled with random bytes that are there. *)
Definition draws_bytes (ev : Process.Event) : Prop :=
  match ev with
  | Process.Request env _ => randomBytes env <> []
  | Process.Tick _ => True
  end.

End ServerInvariant.

(** * Properties *)

(** ** Strings and buffers *)

Section StringFacts.
Import Js Buffer.

Lemma trimEnd_keeps_head c r :
  is_white c = false -> trimEnd (String c r) = String c (trimEnd r).
Proof. intros Hc. simpl. rewrite Hc. by destruct (trimEnd r). Qed.

Lemma trimEnd_idemp s : trimEnd (trimEnd s) = trimEnd s.
Proof.
  induction s as [|c r IH]; [done|].
  simpl. destruct (trimEnd r) as [|c' r'] eqn:Hr.
  - destruct (is_white c) eqn:Hc; [done|]. simpl. by rewrite Hc.
  - simpl in *. by rewrite IH.
Qed.

Lemma trimStart_idemp s : trimStart (trimStart s) = trimStart s.
Proof.
  induction s as [|c r IH]; [done|].
  simpl. destruct (is_white c) eqn:Hc; [done|]. simpl. by rewrite Hc.
Qed.

(** What [trimStart] returns is empty or begins with a character that is
    not white space. *)
Lemma trimStart_head s :
  trimStart s = "" \/
  exists c r, trimStart s = String c r /\ is_white c = false.
Proof.
  induction s as [|c r IH]; [by left|].
  simpl. destruct (is_white c) eqn:Hc; [done|]. right. by exists c, r.
Qed.

Lemma trim_head c r :
  is_white c = false -> trim (String c r) = String c (trimEnd r).
Proof.
  intros Hc. unfold trim. simpl. rewrite Hc. by apply trimEnd_keeps_head.
Qed.

Lemma trim_idemp s : trim (trim s) = trim s.
Proof.
  unfold trim. destruct (trimStart_head s) as [Hs|(c & r & Hs & Hc)];
    rewrite Hs; [done|].
  rewrite trimEnd_keeps_head by done. simpl trimStart. rewrite Hc.
  rewrite trimEnd_keeps_head by done. by rewrite trimEnd_idemp.
Qed.

Lemma trimEnd_app p u :
  trimEnd u = u -> u <> "" -> trimEnd (p ++ u) = p ++ u.
Proof.
  intros Hu Hne. induction p as [|c p IH]; [done|].
  change (String c p ++ u) with (String c (p ++ u)). simpl. rewrite IH.
  destruct (p ++ u) eqn:Happ; [|done].
  destruct p; simpl in Happ; [by subst|discriminate].
Qed.

(** A trimmed string that is not empty stays as it is behind a prefix that
    begins with a character that is not white space. *)
Lemma trim_prefixed c p u :
  is_white c = false -> trim u = u -> u <> "" ->
  trim (String c p ++ u) = String c p ++ u.
Proof.
  intros Hc Hu Hne. change (String c p ++ u) with (String c (p ++ u)).
  rewrite trim_head by done. f_equal. apply trimEnd_app; [|done].
  rewrite <- Hu at 1. unfold trim. rewrite trimEnd_idemp. apply Hu.
Qed.

Lemma hex_digit_not_white n : is_white (hex_digit n) = false.
Proof.
  destruct n as [|p]; [done|].
  do 4 (destruct p as [p|p|]; try done).
Qed.

Lemma trim_toHex buf : trim (toHex buf) = toHex buf.
Proof.
  assert (Hend : forall b, trimEnd (toHex b) = toHex b).
  { induction b as [|b rest IH]; [done|]. cbn [toHex].
    rewrite !trimEnd_keeps_head by apply hex_digit_not_white. by rewrite IH. }
  destruct buf as [|b rest]; [done|]. cbn [toHex].
  rewrite trim_head by apply hex_digit_not_white.
  rewrite trimEnd_keeps_head by apply hex_digit_not_white.
  do 2 f_equal. apply Hend.
Qed.

Lemma toHex_nonempty buf : buf <> [] -> toHex buf <> "".
Proof. by destruct buf. Qed.

Lemma fromHex_toHex buf : fromHex (toHex buf) = buf.
Proof.
  induction buf as [|b rest IH]; [done|].
  cbn [toHex fromHex]. rewrite IH. by destruct b.
Qed.

Lemma timingSafeEqual_true a b : timingSafeEqual a b = Ok true <-> a = b.
Proof.
  unfold timingSafeEqual. split.
  - destruct (length a =? length b)%nat; [|done].
    intros [= Heq]. by apply bool_decide_eq_true in Heq.
  - intros ->. rewrite Nat.eqb_refl. by rewrite bool_decide_eq_true_2.
Qed.

Lemma timingSafeEqual_same_length a b :
  length a = length b -> timingSafeEqual a b = Ok (bool_decide (a = b)).
Proof.
  intros Hlen. unfold timingSafeEqual. by rewrite Hlen, Nat.eqb_refl.
Qed.

Lemma flip_bit_byte_changes k b : k < 8 -> flip_bit_byte k b <> b.
Proof.
  intros Hk. do 8 (destruct k as [|k]; [by destruct b|]). lia.
Qed.

Lemma flip_bit_length i buf : length (flip_bit i buf) = length buf.
Proof.
  revert i. induction buf as [|b rest IH]; intros i; [done|].
  simpl. destruct (i <? 8)%nat; simpl; [done|]. by rewrite IH.
Qed.

Lemma flip_bit_changes i buf : i < 8 * length buf -> flip_bit i buf <> buf.
Proof.
  revert i. induction buf as [|b rest IH]; intros i Hi; simpl in *; [lia|].
  destruct (i <? 8)%nat eqn:Hlt.
  - apply Nat.ltb_lt in Hlt. intros [= Hb]. by apply (flip_bit_byte_changes i b).
  - apply Nat.ltb_ge in Hlt. intros [= Hrest]. apply (IH (i - 8)); [lia|done].
Qed.

End StringFacts.

(** ** Credential verifier *)

Section VerifierFacts.
Import Js Buffer Verifier.
Context `{Runtime}.

Lemma cleanValue_trimmed v : trim (cleanValue v) = cleanValue v.
Proof. destruct v; simpl; try done; apply trim_idemp. Qed.

Lemma nonempty_true s : nonempty s = true <-> s <> "".
Proof.
  unfold nonempty. rewrite negb_true_iff, bool_decide_eq_false. done.
Qed.

Lemma nonempty_false s : nonempty s = false <-> s = "".
Proof.
  unfold nonempty. rewrite negb_false_iff, bool_decide_eq_true. done.
Qed.

(** The strong branch, once it is taken. *)
Lemma verifyPassword_strong_branch legacy row code :
  scryptHashOf row <> "" -> saltOf row <> "" ->
  verifyPassword legacy row code =
  timingSafeEqual (scryptSync code (saltOf row) 64) (fromHex (scryptHashOf row)).
Proof.
  intros Hh Hs. unfold verifyPassword. fold (scryptHashOf row) (saltOf row).
  apply nonempty_true in Hh, Hs. rewrite Hh, Hs. simpl.
  by rewrite fromHex_toHex.
Qed.

(** C1. For a record with a strong hash and a salt, and every submitted
    code: [verifyPassword] returns true exactly when the bytes that the
    stored hexadecimal hash denotes are the scrypt derivation of the code
    with that salt; and when they are that derivation with one bit
    inverted, in particular when the stored hash is the hexadecimal text
    of the derivation with one bit inverted, it returns false. *)
Theorem verifyPassword_strong_hash legacy row code :
  scryptHashOf row <> "" -> saltOf row <> "" ->
  let derived := scryptSync code (saltOf row) 64 in
  (verifyPassword legacy row code = Ok true <->
   fromHex (scryptHashOf row) = derived)
  /\ (forall i, i < 8 * 64 ->
        fromHex (scryptHashOf row) = flip_bit i derived ->
        verifyPassword legacy row code = Ok false)
  /\ (forall i, i < 8 * 64 ->
        scryptHashOf row = toHex (flip_bit i derived) ->
        verifyPassword legacy row code = Ok false).
Proof.
  intros Hh Hs derived. rewrite verifyPassword_strong_branch by done.
  fold derived.
  assert (Hflipped : forall i, i < 8 * 64 ->
            fromHex (scryptHashOf row) = flip_bit i derived ->
            timingSafeEqual derived (fromHex (scryptHashOf row)) = Ok false).
  { intros i Hi Hflip. rewrite Hflip.
    rewrite timingSafeEqual_same_length by (by rewrite flip_bit_length).
    f_equal. apply bool_decide_eq_false. intros Heq.
    apply (flip_bit_changes i derived); [|done].
    subst derived. by rewrite scryptSync_length. }
  split; [|split; [done|]].
  - rewrite timingSafeEqual_true. split; congruence.
  - intros i Hi Hstored. apply (Hflipped i Hi).
    by rewrite Hstored, fromHex_toHex.
Qed.

(** No branch applies without a strong hash and without a Code value. *)
Lemma verifyPassword_reject_branch legacy row code :
  scryptHashOf row = "" -> cleanValue (get row "Code") = "" ->
  verifyPassword legacy row code = Ok false.
Proof.
  intros Hh Hc. unfold verifyPassword. fold (scryptHashOf row).
  apply nonempty_false in Hh, Hc. rewrite Hh, Hc. simpl.
  by rewrite !andb_false_r.
Qed.

(** C4. A record that has no strong hash and no Code value (the column of
    the salted and of the bare legacy hash) is rejected for every submitted
    code, with the legacy flag on and with it off. *)
Theorem verifyPassword_without_material row code :
  scryptHashOf row = "" -> cleanValue (get row "Code") = "" ->
  verifyPassword true row code = Ok false
  /\ verifyPassword false row code = Ok false.
Proof.
  intros Hh Hc. apply nonempty_false in Hh, Hc.
  unfold verifyPassword. fold (scryptHashOf row). rewrite Hh, Hc.
  cbn [andb]. split.
  - by destruct (nonempty (cleanValue (get row "Salt"))).
  - by destruct (nonempty (cleanValue (get row "Salt"))).
Qed.

End VerifierFacts.

(** ** Normalized instructor records *)

Section NormalizeFacts.
Import Js Buffer Verifier Loader.
Context `{Runtime}.

(** The salt [loadData] computes for a row. *)
Lemma salt_choice_trimmed (row : Row) :
  let employeeId := cleanValue (get row "EmployeeID") in
  let salt :=
    if nonempty (cleanValue (get row "Salt")) then cleanValue (get row "Salt")
    else if nonempty employeeId then "emp-" ++ employeeId
    else "default-salt" in
  salt <> "" /\ trim salt = salt.
Proof.
  simpl. destruct (nonempty (cleanValue (get row "Salt"))) eqn:Hs.
  - apply nonempty_true in Hs. split; [done|apply cleanValue_trimmed].
  - destruct (nonempty (cleanValue (get row "EmployeeID"))) eqn:He; [|done].
    apply nonempty_true in He. split; [done|].
    apply (trim_prefixed "e" "mp-"); [done|apply cleanValue_trimmed|done].
Qed.

Lemma get_insert_eq (row : Row) key v : get (<[key := v]> row) key = v.
Proof. unfold get. by rewrite lookup_insert_eq. Qed.

Lemma get_insert_ne (row : Row) key key' v :
  key <> key' -> get (<[key := v]> row) key' = get row key'.
Proof. intros Hne. unfold get. by rewrite lookup_insert_ne. Qed.

Lemma get_delete_eq (row : Row) key : get (delete key row) key = JUndefined.
Proof. unfold get. by rewrite lookup_delete_eq. Qed.

Lemma get_delete_ne (row : Row) key key' :
  key <> key' -> get (delete key row) key' = get row key'.
Proof. intros Hne. unfold get. by rewrite lookup_delete_ne. Qed.

Lemma scryptHashOf_stored (row : Row) h :
  h <> "" -> get row "PasswordHash" = JStr h -> scryptHashOf row = trim h.
Proof.
  intros Hh Hget. unfold scryptHashOf. rewrite Hget. unfold or_else. simpl.
  by rewrite bool_decide_eq_false_2.
Qed.

(** [normalizeInstructor] keeps every column but Salt, PasswordHash and
    Code. *)
Lemma normalizeInstructor_other_column (row : Row) key :
  key <> "Salt" -> key <> "PasswordHash" -> key <> "Code" ->
  get (normalizeInstructor row) key = get row key.
Proof.
  intros H1 H2 H3. unfold normalizeInstructor.
  repeat case_match;
    rewrite ?get_delete_ne, ?get_insert_ne by done; done.
Qed.

(** C9. A record that [loadData] has normalized has a salt that is not
    empty; it has a strong hash or else no Code value; and for every
    submitted code and either value of the legacy flag [verifyPassword]
    compares in the strong branch when there is a strong hash and rejects
    otherwise: the two legacy branches are never taken. *)
Theorem normalizeInstructor_strong_only (row : Row) :
  let r := normalizeInstructor row in
  (exists salt, get r "Salt" = JStr salt /\ salt <> "" /\ saltOf r = salt)
  /\ (scryptHashOf r <> "" \/ cleanValue (get r "Code") = "")
  /\ (forall legacy code,
        verifyPassword legacy r code =
        if nonempty (scryptHashOf r)
        then timingSafeEqual (scryptSync code (saltOf r) 64)
                             (fromHex (scryptHashOf r))
        else Ok false).
Proof.
  intros r.
  destruct (salt_choice_trimmed row) as [Hsne Hstrim]. simpl in Hsne, Hstrim.
  set (salt := if nonempty (cleanValue (get row "Salt")) then _ else _) in *.
  assert (Hsalt : get r "Salt" = JStr salt).
  { subst r. unfold normalizeInstructor. fold salt.
    repeat case_match;
      rewrite ?get_delete_ne, ?get_insert_ne by done; apply get_insert_eq. }
  assert (HsaltOf : saltOf r = salt).
  { unfold saltOf. rewrite Hsalt. apply Hstrim. }
  assert (Hmat : scryptHashOf r <> "" \/
                 (scryptHashOf r = "" /\ cleanValue (get r "Code") = "")).
  { subst r. unfold normalizeInstructor. fold salt.
    destruct (nonempty (cleanValue (or_else _ _))) eqn:Hph.
    - left. apply nonempty_true in Hph.
      erewrite scryptHashOf_stored; [|exact Hph|apply get_insert_eq].
      by rewrite cleanValue_trimmed.
    - destruct (nonempty (cleanValue (get row "Code"))) eqn:Hcode.
      + left. assert (Hhex : toHex (scryptSync (cleanValue (get row "Code")) salt 64) <> "").
        { apply toHex_nonempty. intros Hnil.
          pose proof (scryptSync_length (cleanValue (get row "Code")) salt 64) as Hl.
          by rewrite Hnil in Hl. }
        erewrite scryptHashOf_stored; [|exact Hhex|].
        * by rewrite trim_toHex.
        * rewrite get_delete_ne by done. apply get_insert_eq.
      + right. apply nonempty_false in Hph, Hcode.
        unfold scryptHashOf. by rewrite !get_insert_ne. }
  split; [by exists salt|]. split; [tauto|].
  intros legacy code. destruct Hmat as [Hh|[Hh Hc]].
  - rewrite (proj2 (nonempty_true _) Hh).
    apply verifyPassword_strong_branch; [done|by rewrite HsaltOf].
  - rewrite (proj2 (nonempty_false _) Hh).
    by apply verifyPassword_reject_branch.
Qed.

End NormalizeFacts.

(** ** Session store *)

Section SessionFacts.
Import Js Buffer Sessions.

Lemma bearer_token token :
  (if startsWith "Bearer " ("Bearer " ++ token)
   then slice 7 ("Bearer " ++ token) else "") = token.
Proof. reflexivity. Qed.

(** What [getSession] answers for a token that is in the store. *)
Lemma getSession_stored sessions token session t :
  sessions !! token = Some session ->
  getSession t (Some ("Bearer " ++ token)) sessions =
  if (expiresAt session <? t)%Z then (None, delete token sessions)
  else (Some (token, session), sessions).
Proof.
  intros Hin. unfold getSession.
  change (default "" (Some ("Bearer " ++ token))) with ("Bearer " ++ token).
  rewrite bearer_token. by rewrite Hin.
Qed.

(** C3, as the code has it. A session created at [now0] is stored with
    the expiry [E = now0 + SESSION_TTL_MS]; resolving its token at an
    instant after [E] returns none and deletes the entry, and resolving it
    at [E] or before returns the stored session. *)
Theorem getSession_created_session now0 random id name sessions t :
  let token := toHex random in
  let E := (now0 + SESSION_TTL_MS)%Z in
  let session := {| employeeId := id; employeeName := name; expiresAt := E |} in
  let sessions' := snd (createSession now0 random id name sessions) in
  fst (createSession now0 random id name sessions) = token
  /\ sessions' !! token = Some session
  /\ ((E < t)%Z ->
      getSession t (Some ("Bearer " ++ token)) sessions'
      = (None, delete token sessions'))
  /\ ((t <= E)%Z ->
      getSession t (Some ("Bearer " ++ token)) sessions'
      = (Some (token, session), sessions')).
Proof.
  intros token E session sessions'.
  assert (Hin : sessions' !! token = Some session)
    by apply lookup_insert_eq.
  split; [done|]. split; [done|].
  rewrite (getSession_stored _ _ _ t Hin). cbn [expiresAt session].
  split; intros Ht.
  - by rewrite (proj2 (Z.ltb_lt _ _) Ht).
  - by rewrite (proj2 (Z.ltb_ge _ _) Ht).
Qed.

End SessionFacts.

(** ** Activity extraction *)

Section ActivityFacts.
Import Js Activities.
Context `{Runtime}.

Lemma extractAt_skipped row i activities :
  emitted row i = false -> extractAt row i activities = Ok activities.
Proof.
  unfold emitted, extractAt. destruct (hasValue (dateFieldOf row i)); [|done].
  simpl. by destruct (hasValue (cancelFieldOf row i)).
Qed.

Lemma extractAt_emitted row i activities :
  emitted row i = true ->
  extractAt row i activities =
  match date_to_iso (dateFieldOf row i) with
  | None => Throw "Invalid time value"
  | Some iso => Ok (activities ++ [activityOf row i iso])%list
  end.
Proof.
  unfold emitted, extractAt. destruct (hasValue (dateFieldOf row i)); [|done].
  simpl. by destruct (hasValue (cancelFieldOf row i)).
Qed.

Lemma extractLoop_total row rounds : forall i activities,
  (forall k, i <= k < i + rounds -> emitted row k = true ->
             date_to_iso (dateFieldOf row k) <> None) ->
  extractLoop row i rounds activities
  = Ok (activities ++ concat (map (pushed row) (seq i rounds)))%list.
Proof.
  induction rounds as [|rounds IH]; intros i activities Hparse.
  - simpl. by rewrite app_nil_r.
  - cbn [extractLoop seq map concat]. unfold pushed at 1.
    destruct (emitted row i) eqn:Hem.
    + rewrite extractAt_emitted by done.
      destruct (date_to_iso (dateFieldOf row i)) as [iso|] eqn:Hiso.
      * rewrite IH by (intros k Hk; apply Hparse; lia). by rewrite <- app_assoc.
      * exfalso. apply (Hparse i); [lia|done|done].
    + rewrite extractAt_skipped by done.
      rewrite IH by (intros k Hk; apply Hparse; lia). done.
Qed.

Lemma extractLoop_throws row rounds : forall i activities k,
  i <= k < i + rounds -> emitted row k = true ->
  date_to_iso (dateFieldOf row k) = None ->
  extractLoop row i rounds activities = Throw "Invalid time value".
Proof.
  induction rounds as [|rounds IH]; intros i activities k Hk Hem Hiso; [lia|].
  cbn [extractLoop]. destruct (decide (k = i)) as [->|Hne].
  - rewrite extractAt_emitted by done. by rewrite Hiso.
  - destruct (emitted row i) eqn:Hemi.
    + rewrite extractAt_emitted by done.
      destruct (date_to_iso (dateFieldOf row i)); [|done].
      apply (IH _ _ k); [lia|done|done].
    + rewrite extractAt_skipped by done. apply (IH _ _ k); [lia|done|done].
Qed.

Lemma pushed_numbers row l :
  (forall k, k ∈ l -> emitted row k = true ->
             date_to_iso (dateFieldOf row k) <> None) ->
  map meetingNumber (concat (map (pushed row) l)) = List.filter (emitted row) l.
Proof.
  induction l as [|k l IH]; intros Hparse; [done|].
  cbn [map concat List.filter]. rewrite map_app, IH.
  - unfold pushed. destruct (emitted row k) eqn:Hem; [|done].
    destruct (date_to_iso (dateFieldOf row k)) eqn:Hiso; [done|].
    exfalso. apply (Hparse k); [left|done|done].
  - intros k' Hk'. apply Hparse. by right.
Qed.

Lemma pushed_activity row l a :
  a ∈ concat (map (pushed row) l) ->
  meetingNumber a ∈ l
  /\ exists iso, date_to_iso (dateFieldOf row (meetingNumber a)) = Some iso
                 /\ a = activityOf row (meetingNumber a) iso.
Proof.
  induction l as [|k l IH]; [by intros ?%elem_of_nil|].
  cbn [map concat]. rewrite elem_of_app. intros [Hin|Hin].
  - unfold pushed in Hin. destruct (emitted row k); [|by apply elem_of_nil in Hin].
    destruct (date_to_iso (dateFieldOf row k)) as [iso|] eqn:Hiso;
      [|by apply elem_of_nil in Hin].
    apply list_elem_of_singleton in Hin. subst a. simpl.
    split; [left|]. by exists iso.
  - destruct (IH Hin) as [Hl Hex]. split; [by right|done].
Qed.

(** In a list of indices without repetition, index [i] is kept once by a
    filter that accepts it and not at all otherwise. *)
Lemma filter_count (P : nat -> bool) l i :
  NoDup l -> i ∈ l ->
  length (List.filter (fun k => (k =? i)%nat) (List.filter P l))
  = if P i then 1 else 0.
Proof.
  induction 1 as [|k l Hnotin Hnd IH]; [by intros ?%elem_of_nil|].
  assert (Hout : forall l', i ∉ l' ->
            length (List.filter (fun k => (k =? i)%nat) (List.filter P l')) = 0).
  { clear. induction l' as [|k l' IH]; intros Hi; [done|].
    cbn [List.filter]. apply not_elem_of_cons in Hi as [Hne Hi].
    destruct (P k); [|by apply IH]. cbn [List.filter].
    rewrite (proj2 (Nat.eqb_neq k i)) by done. by apply IH. }
  intros [->|Hin]%elem_of_cons.
  - cbn [List.filter]. destruct (P k); [|by apply Hout].
    cbn [List.filter]. rewrite Nat.eqb_refl. simpl. by rewrite Hout.
  - cbn [List.filter]. assert (k <> i) by (by intros ->).
    destruct (P k); [|by apply IH]. cbn [List.filter].
    rewrite (proj2 (Nat.eqb_neq k i)) by done. by apply IH.
Qed.

Lemma filter_map_length {A} (g : A -> nat) (p : nat -> bool) (l : list A) :
  length (List.filter (fun a => p (g a)) l)
  = length (List.filter p (map g l)).
Proof.
  induction l as [|a l IH]; [done|].
  cbn [List.filter map]. destruct (p (g a)); simpl; by rewrite IH.
Qed.

Lemma column_first (row : Row) name fallback :
  column row name 1 fallback = or_else (get row (name ++ "1")) (get row name).
Proof. reflexivity. Qed.

Lemma column_later (row : Row) name i fallback :
  i <> 1 ->
  column row name i fallback = or_else (get row (name ++ pretty i)) fallback.
Proof.
  intros Hi. unfold column. by rewrite (proj2 (Nat.eqb_neq i 1)).
Qed.

(** C5, as the code has it. A field-group is let through when its date
    field has a value and its cancellation field has none ([emitted]), the
    field of group 1 being the suffixed column or else the unsuffixed one.
    When the date of every group let through parses, extraction returns a
    list that holds no activity for a group that is not let through and
    exactly one, built from the columns of the group, for a group that is,
    in the order of the indices 1 to 16. When the date of a group let
    through does not parse, extraction throws and returns no list. *)
Theorem extractActivities_groups (row : Row) :
  ((forall i, 1 <= i <= 16 -> emitted row i = true ->
              date_to_iso (dateFieldOf row i) <> None) ->
   exists activities,
     extractActivities row = Ok activities
     /\ map meetingNumber activities = List.filter (emitted row) (seq 1 16)
     /\ (forall i, 1 <= i <= 16 ->
           length (List.filter (fun a => (meetingNumber a =? i)%nat) activities)
           = if emitted row i then 1 else 0)
     /\ (forall a, a ∈ activities ->
           exists iso,
             date_to_iso (dateFieldOf row (meetingNumber a)) = Some iso
             /\ a = activityOf row (meetingNumber a) iso)
     /\ dateFieldOf row 1 = or_else (get row "Date1") (get row "Date")
     /\ cancelFieldOf row 1 = or_else (get row "Cancel1") (get row "Cancel"))
  /\ (forall k, 1 <= k <= 16 -> emitted row k = true ->
                date_to_iso (dateFieldOf row k) = None ->
                extractActivities row = Throw "Invalid time value"
                /\ forall activities, extractActivities row <> Ok activities).
Proof.
  split.
  - intros Hparse. exists (concat (map (pushed row) (seq 1 16))).
    assert (Hnum : map meetingNumber (concat (map (pushed row) (seq 1 16)))
                   = List.filter (emitted row) (seq 1 16)).
    { apply pushed_numbers. intros k Hk%elem_of_seq. apply Hparse. lia. }
    split; [|split; [done|split; [|split; [|done]]]].
    + unfold extractActivities. rewrite extractLoop_total; [done|].
      intros k Hk. apply Hparse. lia.
    + intros i Hi.
      rewrite (filter_map_length meetingNumber (fun k => (k =? i)%nat)), Hnum.
      apply filter_count; [apply NoDup_seq|]. apply elem_of_seq. lia.
    + intros a Ha. by destruct (pushed_activity row _ a Ha).
  - intros k Hk Hem Hiso.
    assert (Hthrow : extractActivities row = Throw "Invalid time value").
    { apply (extractLoop_throws row 16 1 [] k); [lia|done|done]. }
    split; [done|]. intros activities. by rewrite Hthrow.
Qed.

End ActivityFacts.

(** ** Program rules *)

Section RuleFacts.
Import Js Verifier Rules.
Context `{Runtime}.

Lemma drop_two_cells (row : list JsVal) j :
  j + 1 < length row ->
  drop j row = cell row j :: cell row (j + 1) :: drop (j + 2) row.
Proof.
  intros Hj.
  destruct (lookup_lt_is_Some_2 row j) as [x Hx]; [lia|].
  destruct (lookup_lt_is_Some_2 row (j + 1)) as [y Hy]; [lia|].
  unfold cell. rewrite Hx, Hy. simpl.
  rewrite (drop_S _ x j Hx). replace (S j) with (j + 1) by lia.
  rewrite (drop_S _ y (j + 1) Hy). by replace (S (j + 1)) with (j + 2) by lia.
Qed.

Lemma drop_short_no_pair (row : list JsVal) j :
  length row <= j + 1 -> pairedNotes (drop j row) = [].
Proof.
  intros Hj. destruct (drop j row) as [|x [|y rest]] eqn:Hd; [done|done|].
  apply (f_equal length) in Hd. rewrite length_drop in Hd. simpl in Hd. lia.
Qed.

(** The loop over the columns and the pairs of the specification agree, and
    [length row] rounds let the loop reach the end of the row. *)
Lemma notesLoop_paired (row : list JsVal) rounds : forall j notes,
  length row <= j + 2 * rounds ->
  notesLoop row j rounds notes = (notes ++ pairedNotes (drop j row))%list.
Proof.
  induction rounds as [|rounds IH]; intros j notes Hlen.
  - simpl. rewrite drop_short_no_pair by lia. by rewrite app_nil_r.
  - cbn [notesLoop]. destruct (j + 1 <? length row)%nat eqn:Hj.
    + apply Nat.ltb_lt in Hj. rewrite IH by lia.
      rewrite (drop_two_cells row j Hj). cbn [pairedNotes].
      destruct (nonempty (cleanValue (cell row j))
                && nonempty (cleanValue (cell row (j + 1)))); [|done].
      by rewrite <- app_assoc.
    + apply Nat.ltb_ge in Hj. rewrite drop_short_no_pair by lia.
      by rewrite app_nil_r.
Qed.

Lemma notesOfRow_paired (row : list JsVal) :
  notesOfRow row = pairedNotes (drop 2 row).
Proof. unfold notesOfRow. rewrite notesLoop_paired by lia. done. Qed.

(** A cell that the row has is read from the row. *)
Lemma cellIn_own prototype (row : list JsVal) j v :
  row !! j = Some v -> cellIn prototype row j = v.
Proof. intros Hv. unfold cellIn. by rewrite Hv. Qed.

(** A row whose meeting number is not finite leaves the table as it is. *)
Lemma ruleStep_not_finite heap r :
  is_finite (toNumber (cellIn (prototypeArrays heap) (default [] r) 1)) = false ->
  ruleStep heap r = heap.
Proof. intros Hnum. unfold ruleStep. rewrite Hnum. by rewrite orb_true_r. Qed.

Lemma loadRules_cons prototype r programRows :
  loadRules prototype (r :: programRows)
  = foldl ruleStep {| own := ∅; prototypeArrays := prototype |} programRows.
Proof. reflexivity. Qed.

Lemma loadRules_snoc prototype first programRows r :
  loadRules prototype (first :: programRows ++ [r])
  = ruleStep (loadRules prototype (first :: programRows)) r.
Proof. rewrite !loadRules_cons. by rewrite foldl_app. Qed.

(** A row that is kept, for a program key that the table has as own
    property or does not inherit, stores its notes under its program key
    and meeting number. *)
Lemma ruleStep_kept heap row :
  let programKey := normalizeProgramName (cellIn (prototypeArrays heap) row 0) in
  let meetingNum := toNumber (cellIn (prototypeArrays heap) row 1) in
  programKey <> "" -> is_finite meetingNum = true ->
  is_Some (own heap !! programKey) \/ inheritsName heap programKey = false ->
  ruleStep heap (Some row)
  = {| own := <[programKey :=
                  <[number_to_string meetingNum := pairedNotes (drop 2 row)]>
                    (default ∅ (own heap !! programKey))]> (own heap);
       prototypeArrays := prototypeArrays heap |}.
Proof.
  intros programKey meetingNum Hkey Hnum Hfresh.
  apply nonempty_true in Hkey. subst programKey meetingNum.
  unfold ruleStep. change (default [] (Some row)) with row.
  rewrite Hkey, Hnum. cbn [negb orb].
  rewrite notesOfRow_paired.
  destruct (own heap !! normalizeProgramName (cellIn (prototypeArrays heap) row 0))
    as [rules|] eqn:Hown; [done|].
  destruct Hfresh as [[? [=]]|Hfresh]. rewrite Hfresh. cbn [default].
  by rewrite insert_empty.
Qed.

(** C6. The table is what the loop makes of the rows after the first,
    one after the other, so the first row has no part in the result; a
    later row whose meeting number, [Number(row[1])], is not a finite
    number is skipped, and the result is the one of the table without that
    row, in particular when the row has a second cell that is no finite
    number; the notes of a row are the (type, text) pairs of its cells
    after the second one, in column order, a pair giving a note exactly
    when both members are not empty once trimmed; and a row that is kept,
    for a program key that is an own property of the table or is not
    inherited, stores these notes in the table under its program key and
    meeting number. *)
Theorem loadRules_rows (prototype : gmap string ProtoArray) :
  (forall first programRows,
      loadRules prototype (first :: programRows)
      = foldl ruleStep {| own := ∅; prototypeArrays := prototype |} programRows)
  /\ (forall first first' programRows,
        loadRules prototype (first :: programRows)
        = loadRules prototype (first' :: programRows))
  /\ (forall first before r after,
        let heap := loadRules prototype (first :: before) in
        is_finite (toNumber (cellIn (prototypeArrays heap) (default [] r) 1))
        = false ->
        loadRules prototype (first :: before ++ r :: after)
        = loadRules prototype (first :: before ++ after))
  /\ (forall first before row v after,
        row !! 1 = Some v -> is_finite (toNumber v) = false ->
        loadRules prototype (first :: before ++ Some row :: after)
        = loadRules prototype (first :: before ++ after))
  /\ (forall row, notesOfRow row = pairedNotes (drop 2 row))
  /\ (forall first before row after,
        let heap := loadRules prototype (first :: before) in
        let programKey :=
          normalizeProgramName (cellIn (prototypeArrays heap) row 0) in
        let meetingNum := toNumber (cellIn (prototypeArrays heap) row 1) in
        programKey <> "" -> is_finite meetingNum = true ->
        is_Some (own heap !! programKey) \/ inheritsName heap programKey = false ->
        loadRules prototype (first :: before ++ [Some row])
        = {| own := <[programKey :=
                        <[number_to_string meetingNum := pairedNotes (drop 2 row)]>
                          (default ∅ (own heap !! programKey))]> (own heap);
             prototypeArrays := prototypeArrays heap |}
        /\ loadRules prototype (first :: before ++ Some row :: after)
           = foldl ruleStep (loadRules prototype (first :: before ++ [Some row]))
                   after).
Proof.
  assert (Hskip : forall first before r after,
    is_finite (toNumber (cellIn (prototypeArrays
                                   (loadRules prototype (first :: before)))
                                (default [] r) 1)) = false ->
    loadRules prototype (first :: before ++ r :: after)
    = loadRules prototype (first :: before ++ after)).
  { intros first before r after Hnum. rewrite loadRules_cons in Hnum.
    rewrite !loadRules_cons, !foldl_app.
    cbn [foldl]. by rewrite ruleStep_not_finite. }
  split; [done|]. split; [done|]. split; [exact Hskip|].
  split; [|split; [apply notesOfRow_paired|]].
  - intros first before row v after Hv Hnum. apply Hskip.
    change (default [] (Some row)) with row.
    by rewrite (cellIn_own _ row 1 v Hv).
  - intros first before row after heap programKey meetingNum Hkey Hnum Hfresh.
    split; [rewrite loadRules_snoc; by apply ruleStep_kept|].
    rewrite !loadRules_cons, !foldl_app. done.
Qed.

End RuleFacts.

(** ** Reload of the snapshot *)

Section LoaderFacts.
Import Js Verifier Loader Server.
Context `{Runtime}.

Lemma loadData_failed sheets w :
  all_parsed sheets = false ->
  snd (loadData sheets w) = w /\ is_ok (fst (loadData sheets w)) = false.
Proof.
  unfold all_parsed, loadData.
  destruct (instructor sheets); [|done].
  destruct (programRulesRows sheets); [|done].
  by destruct (globalMessagesRows sheets).
Qed.

Lemma loadData_parsed sheets w rows programRows globalRows :
  instructor sheets = Ok rows ->
  programRulesRows sheets = Ok programRows ->
  globalMessagesRows sheets = Ok globalRows ->
  loadData sheets w
  = (Ok tt,
     {| dataStore :=
          {| instructors := map normalizeInstructor rows;
             programRules :=
               Rules.own (Rules.loadRules (objectPrototype w) programRows);
             globalMessages := Messages.loadMessages globalRows |};
        sessions := sessions w;
        objectPrototype :=
          Rules.prototypeArrays
            (Rules.loadRules (objectPrototype w) programRows) |}).
Proof. intros Hi Hp Hg. unfold loadData. by rewrite Hi, Hp, Hg. Qed.

(** C2. When one of the three parses of a run of [loadData] throws, the
    run ends with that exception and the whole state, the snapshot
    included, is the one before the call, on the timer ([reload]) as at the
    start ([bootstrap]); when the three succeed the snapshot is the one
    built from the three tables; so a snapshot that has changed comes from
    three successful parses. *)
Theorem loadData_no_partial_replacement sheets w :
  (all_parsed sheets = false ->
     snd (loadData sheets w) = w
     /\ is_ok (fst (loadData sheets w)) = false
     /\ reload sheets w = w
     /\ snd (bootstrap sheets w) = w
     /\ is_ok (fst (bootstrap sheets w)) = false)
  /\ (forall rows programRows globalRows,
        instructor sheets = Ok rows ->
        programRulesRows sheets = Ok programRows ->
        globalMessagesRows sheets = Ok globalRows ->
        fst (loadData sheets w) = Ok tt
        /\ dataStore (snd (loadData sheets w))
           = {| instructors := map normalizeInstructor rows;
                programRules :=
                  Rules.own (Rules.loadRules (objectPrototype w) programRows);
                globalMessages := Messages.loadMessages globalRows |})
  /\ (dataStore (snd (loadData sheets w)) <> dataStore w ->
      all_parsed sheets = true).
Proof.
  split; [|split].
  - intros Hfail. destruct (loadData_failed sheets w Hfail) as [Heq Hthrow].
    unfold reload, bootstrap. by destruct (dataFiles sheets).
  - intros rows programRows globalRows Hi Hp Hg.
    by rewrite (loadData_parsed sheets w _ _ _ Hi Hp Hg).
  - intros Hchanged. destruct (all_parsed sheets) eqn:Hall; [done|].
    destruct (loadData_failed sheets w Hall) as [Heq _].
    rewrite Heq in Hchanged. done.
Qed.

Lemma normalizeInstructor_employeeId (row : Row) :
  employeeIdOf (normalizeInstructor row) = employeeIdOf row.
Proof.
  unfold employeeIdOf. by rewrite normalizeInstructor_other_column.
Qed.

Lemma find_first {A} (p : A -> bool) (l : list A) (x : A) :
  List.find p l = Some x ->
  p x = true
  /\ exists before after,
       l = (before ++ x :: after)%list /\ forall y, y ∈ before -> p y = false.
Proof.
  induction l as [|a l IH]; [done|]. simpl. destruct (p a) eqn:Hp.
  - intros [= ->]. split; [done|]. exists [], l. split; [done|].
    by intros y ?%elem_of_nil.
  - intros Hfind. destruct (IH Hfind) as (Hx & before & after & -> & Hbefore).
    split; [done|]. exists (a :: before), after. split; [done|].
    intros y [->|Hy]%elem_of_cons; [done|by apply Hbefore].
Qed.

Lemma find_none {A} (p : A -> bool) (l : list A) :
  List.find p l = None <-> forall y, y ∈ l -> p y = false.
Proof.
  induction l as [|a l IH]; simpl.
  - split; [by intros _ y ?%elem_of_nil|done].
  - destruct (p a) eqn:Hp.
    + split; [done|]. intros Hall. rewrite Hall in Hp; [done|left].
    + rewrite IH. split.
      * intros Hall y [->|Hy]%elem_of_cons; [done|by apply Hall].
      * intros Hall y Hy. apply Hall. by right.
Qed.

(** C8, as the code has it. The snapshot of a reload holds one record per
    row of the instructors sheet, in row order and with the employee id of
    the row, so its employee ids are pairwise different exactly when those
    of the sheet are; a lookup by employee id returns the first record
    whose trimmed EmployeeID is the string looked up, and none when there
    is no such record. *)
Theorem loadData_instructor_records sheets w rows :
  instructor sheets = Ok rows -> all_parsed sheets = true ->
  let w' := snd (loadData sheets w) in
  let records := instructors (dataStore w') in
  records = map normalizeInstructor rows
  /\ length records = length rows
  /\ map employeeIdOf records = map employeeIdOf rows
  /\ (NoDup (map employeeIdOf records) <-> NoDup (map employeeIdOf rows))
  /\ (forall id record,
        findInstructor w' id = Some record ->
        employeeIdOf record = id
        /\ exists before after,
             records = (before ++ record :: after)%list
             /\ forall other, other ∈ before -> employeeIdOf other <> id)
  /\ (forall id,
        findInstructor w' id = None <->
        forall record, record ∈ records -> employeeIdOf record <> id).
Proof.
  intros Hi Hall w' records.
  assert (Hrecords : records = map normalizeInstructor rows).
  { subst records w'. unfold all_parsed in Hall. rewrite Hi in Hall.
    destruct (programRulesRows sheets) as [programRows|] eqn:Hp; [|done].
    destruct (globalMessagesRows sheets) as [globalRows|] eqn:Hg; [|done].
    by rewrite (loadData_parsed sheets w _ _ _ Hi Hp Hg). }
  assert (Hids : map employeeIdOf records = map employeeIdOf rows).
  { rewrite Hrecords, map_map. apply map_ext. intros row.
    apply normalizeInstructor_employeeId. }
  split; [done|]. split; [by rewrite Hrecords, length_map|].
  split; [done|]. split; [by rewrite Hids|]. split.
  - intros id record Hfind. apply find_first in Hfind
      as (Hid & before & after & Hsplit & Hbefore).
    apply bool_decide_eq_true in Hid. split; [done|].
    exists before, after. split; [done|]. intros other Hother.
    by apply (bool_decide_eq_false_1 (employeeIdOf other = id)), Hbefore.
  - intros id. unfold findInstructor. rewrite find_none.
    split; intros Hall' record Hrecord.
    + by apply (bool_decide_eq_false_1 (employeeIdOf record = id)), Hall'.
    + by apply bool_decide_eq_false_2, Hall'.
Qed.

End LoaderFacts.

(** ** The request handler *)

Section ServerFacts.
Import Js Buffer Verifier Loader Server.
Context `{Runtime}.

Lemma with_sessions_same w : with_sessions w (sessions w) = w.
Proof. by destruct w. Qed.

Lemma dispatch_login legacy env req w :
  method req = "POST" -> url req = "/api/login" ->
  dispatch legacy env req w = login legacy env req w.
Proof. intros Hm Hu. unfold dispatch. by rewrite Hm, Hu. Qed.

Lemma dispatch_schedule legacy env req w :
  method req = "GET" -> url req = "/api/me/schedule" ->
  dispatch legacy env req w = schedule env req w.
Proof. intros Hm Hu. unfold dispatch. by rewrite Hm, Hu. Qed.

(** A login whose stored hash makes the comparison throw is answered 500. *)
Lemma login_verify_throws legacy env req w fields row e :
  method req = "POST" -> url req = "/api/login" ->
  body req = Ok (BodyObject fields) ->
  cleanValue (get fields "employeeId") <> "" ->
  cleanValue (get fields "code") <> "" ->
  findInstructor w (cleanValue (get fields "employeeId")) = Some row ->
  verifyPassword legacy row (cleanValue (get fields "code")) = Throw e ->
  server legacy env req w = (sendJson 500 (Error "Server error" (Some e)), w).
Proof.
  intros Hm Hu Hb Hid Hcode Hfind Hverify.
  unfold server. rewrite dispatch_login by done. unfold login. rewrite Hb.
  apply nonempty_true in Hid, Hcode. rewrite Hid, Hcode. cbn [negb orb].
  by rewrite Hfind, Hverify.
Qed.

(** C7, as the code has it. For a POST to /api/login whose body is a JSON
    value other than null: the answer is 400 when the trimmed employeeId or
    the trimmed code is empty; it is 401 when no record has that trimmed
    employee id or when [verifyPassword] returns false for the first such
    record; and when [verifyPassword] returns true it is 200 with the token
    just drawn and the trimmed name of the employee, the session being
    stored under that token. *)
Theorem login_status legacy env req w fields :
  method req = "POST" -> url req = "/api/login" ->
  body req = Ok (BodyObject fields) ->
  let employeeId := cleanValue (get fields "employeeId") in
  let code := cleanValue (get fields "code") in
  let response := fst (server legacy env req w) in
  let w' := snd (server legacy env req w) in
  (employeeId = "" \/ code = "" -> status response = 400 /\ w' = w)
  /\ (employeeId <> "" -> code <> "" ->
      findInstructor w employeeId = None -> status response = 401 /\ w' = w)
  /\ (forall row,
        employeeId <> "" -> code <> "" ->
        findInstructor w employeeId = Some row ->
        (verifyPassword legacy row code = Ok false ->
         status response = 401 /\ w' = w)
        /\ (verifyPassword legacy row code = Ok true ->
            let token := toHex (randomBytes env) in
            let employeeName := cleanValue (get row "Employee") in
            response = sendJson 200 (Login token employeeName)
            /\ sessions w'
               = <[token := {| Sessions.employeeId := employeeId;
                               Sessions.employeeName := employeeName;
                               Sessions.expiresAt :=
                                 (now env + Sessions.SESSION_TTL_MS)%Z |}]>
                   (sessions w)
            /\ dataStore w' = dataStore w)).
Proof.
  intros Hm Hu Hb employeeId code response w'.
  subst response w'. unfold server. rewrite dispatch_login by done.
  unfold login. rewrite Hb. fold employeeId code.
  split; [|split].
  - intros Hempty.
    assert (Hguard : negb (nonempty employeeId) || negb (nonempty code) = true).
    { destruct Hempty as [He|He]; apply nonempty_false in He; rewrite He;
        [done|by rewrite orb_true_r]. }
    by rewrite Hguard.
  - intros Hid Hcode Hfind. apply nonempty_true in Hid, Hcode.
    rewrite Hid, Hcode. cbn [negb orb]. by rewrite Hfind.
  - intros row Hid Hcode Hfind. apply nonempty_true in Hid, Hcode.
    rewrite Hid, Hcode. cbn [negb orb]. rewrite Hfind.
    split; intros Hverify; by rewrite Hverify.
Qed.

(** C10, as the code has it. When a field-group of a record is let
    through, its date field having a value and its cancellation field
    none, and its date does not parse, extraction throws instead of
    returning a list, and the schedule request of a session of that
    employee is answered 500. Extraction returns a list exactly when the
    date of every field-group let through parses: so whenever every date
    field that has a value parses, and also when the only dates that do
    not parse are those of cancelled field-groups. *)
Theorem schedule_invalid_date legacy env req w token session (row : Row) :
  (forall i, 1 <= i <= 16 -> Activities.emitted row i = true ->
     date_to_iso (Activities.dateFieldOf row i) = None ->
     Activities.extractActivities row = Throw "Invalid time value"
     /\ (method req = "GET" -> url req = "/api/me/schedule" ->
         authorization req = Some ("Bearer " ++ token) ->
         sessions w !! token = Some session ->
         (now env <= Sessions.expiresAt session)%Z ->
         findInstructor w (Sessions.employeeId session) = Some row ->
         server legacy env req w
         = (sendJson 500 (Error "Server error" (Some "Invalid time value")),
            w)))
  /\ (is_ok (Activities.extractActivities row) = true
      <-> forall j, 1 <= j <= 16 -> Activities.emitted row j = true ->
                    date_to_iso (Activities.dateFieldOf row j) <> None)
  /\ ((forall j, 1 <= j <= 16 ->
                 hasValue (Activities.dateFieldOf row j) = true ->
                 date_to_iso (Activities.dateFieldOf row j) <> None) ->
      is_ok (Activities.extractActivities row) = true).
Proof.
  assert (Htotal :
    (forall j, 1 <= j <= 16 -> Activities.emitted row j = true ->
               date_to_iso (Activities.dateFieldOf row j) <> None) ->
    is_ok (Activities.extractActivities row) = true).
  { intros Hparse. unfold Activities.extractActivities.
    rewrite extractLoop_total; [done|].
    intros k Hk Hemk. apply Hparse; [lia|done]. }
  split; [|split; [split; [|exact Htotal]|]].
  - intros i Hi Hem Hiso.
    assert (Hthrow :
      Activities.extractActivities row = Throw "Invalid time value").
    { apply (extractLoop_throws row 16 1 [] i); [lia|done|done]. }
    split; [done|]. intros Hm Hu Hauth Hin Hlive Hfind.
    unfold server. rewrite dispatch_schedule by done. unfold schedule.
    rewrite Hauth, (getSession_stored _ _ _ _ Hin).
    rewrite (proj2 (Z.ltb_ge _ _) Hlive), with_sessions_same.
    by rewrite Hfind, Hthrow.
  - intros Hok j Hj Hem Hiso. unfold Activities.extractActivities in Hok.
    by rewrite (extractLoop_throws row 16 1 [] j) in Hok by (lia || done).
  - intros Hparse. apply Htotal. intros j Hj Hem. apply Hparse; [done|].
    unfold Activities.emitted in Hem. by apply andb_true_iff in Hem as [? _].
Qed.

End ServerFacts.

(** ** The statements at the sample data *)

Section Examples.
Import Js Buffer Verifier Sessions Activities Rules Loader Server Demo.
#[local] Existing Instance demo_runtime.

Lemma verifyPassword_strong_hash_witness :
  verifyPassword false dana "abc123" = Ok true <->
  fromHex (scryptHashOf dana) = scryptSync "abc123" (saltOf dana) 64.
Proof.
  apply (verifyPassword_strong_hash false dana "abc123");
    vm_compute; discriminate.
Defined.

(** The hash of [dana] with bit 3 of its first byte inverted is refused. *)
Example verifyPassword_flipped_hash :
  let derived := scryptSync "abc123" "s1" 64 in
  verifyPassword false
    (<["PasswordHash" := JStr (toHex (flip_bit 3 derived))]> dana) "abc123"
  = Ok false.
Proof. by vm_compute. Qed.

(** The stored text is read as hexadecimal digits of either case, and a
    text that decodes to another length makes the comparison throw. *)
Example verifyPassword_upper_case_hash :
  let upper := <["PasswordHash" := JStr "B7B8"]> dana in
  fromHex (scryptHashOf upper) = fromHex "b7b8".
Proof. reflexivity. Qed.

Example verifyPassword_short_hash_throws :
  verifyPassword false short_hash "abc123"
  = Throw "Input buffers must have the same byte length".
Proof. reflexivity. Qed.

Lemma verifyPassword_without_material_witness :
  verifyPassword true bare "abc123" = Ok false
  /\ verifyPassword false bare "abc123" = Ok false.
Proof.
  apply (verifyPassword_without_material bare "abc123"); reflexivity.
Defined.

(** C3 as stated fails at the expiry instant itself: the session created
    at instant 1000 expires at [1000 + SESSION_TTL_MS], and resolving its
    token at that very instant returns the session. *)
Lemma getSession_at_expiry_instant :
  let E := (1000 + SESSION_TTL_MS)%Z in
  let sessions := snd (createSession 1000 demo_random "1002" "Noam" ∅) in
  sessions !! toHex demo_random = Some noam_session
  /\ expiresAt noam_session = E
  /\ (E >= expiresAt noam_session)%Z
  /\ getSession E (Some ("Bearer " ++ toHex demo_random)) sessions
     = (Some (toHex demo_random, noam_session), sessions).
Proof.
  intros E sessions. split; [reflexivity|]. split; [reflexivity|].
  split; [|reflexivity]. subst E. cbn [expiresAt noam_session]. lia.
Qed.

Lemma getSession_created_session_witness :
  getSession (1001 + SESSION_TTL_MS)
    (Some ("Bearer " ++ toHex demo_random))
    (snd (createSession 1000 demo_random "1002" "Noam" ∅))
  = (None,
     delete (toHex demo_random)
       (snd (createSession 1000 demo_random "1002" "Noam" ∅))).
Proof.
  apply (getSession_created_session 1000 demo_random "1002" "Noam" ∅
           (1001 + SESSION_TTL_MS)).
  lia.
Defined.

Lemma loadData_no_partial_replacement_witness :
  snd (loadData sheets_broken world1) = world1
  /\ is_ok (fst (loadData sheets_broken world1)) = false
  /\ reload sheets_broken world1 = world1
  /\ snd (bootstrap sheets_broken world1) = world1
  /\ is_ok (fst (bootstrap sheets_broken world1)) = false.
Proof.
  apply (proj1 (loadData_no_partial_replacement sheets_broken world1)).
  reflexivity.
Defined.

(** C5 as stated fails for a date that has a value and does not parse:
    group 1 of [noam] has the date "soon" and no cancellation, and
    extraction throws instead of returning a list with its activity. *)
Lemma extractActivities_unparseable_date :
  hasValue (dateFieldOf noam 1) = true
  /\ hasValue (cancelFieldOf noam 1) = false
  /\ extractActivities noam = Throw "Invalid time value".
Proof. by vm_compute. Qed.

Lemma extractActivities_groups_witness :
  (exists activities,
     extractActivities dana = Ok activities
     /\ map meetingNumber activities = [1; 5])
  /\ extractActivities noam = Throw "Invalid time value".
Proof.
  split.
  - destruct (proj1 (extractActivities_groups dana))
      as (activities & Hok & Hnum & _).
    + intros i Hi Hem.
      do 17 (destruct i as [|i];
             [try lia; vm_compute in Hem; vm_compute; congruence|]).
      lia.
    + exists activities. split; [exact Hok|]. rewrite Hnum. reflexivity.
  - apply (proj2 (extractActivities_groups noam) 1);
      [lia|reflexivity|reflexivity].
Defined.

Lemma loadRules_rows_witness :
  loadRules ∅ rule_rows
  = loadRules ∅
      [ Some [JStr "Program"; JStr "Meeting"; JStr "Type"; JStr "Text"];
        Some [JStr " Robotics "; JNum 1%float; JStr "Bring"; JStr " kit ";
              JStr ""; JStr "dropped"; JStr "Tip"; JStr "smile"; JStr "odd"];
        None;
        Some [JStr "Chess"; JStr "2"; JStr "Tip"; JStr "clock"] ]
  /\ loadRules ∅
       [ Some [JStr "Program"; JStr "Meeting"];
         Some [JStr "Chess"; JStr "2"; JStr "Tip"; JStr "clock"] ]
     = {| own := {[ "chess" := {[ "2" := [ {| type := "Tip";
                                              text := "clock" |} ] ]} ]};
          prototypeArrays := ∅ |}.
Proof.
  split.
  - apply (proj1 (proj2 (proj2 (loadRules_rows ∅)))
             (Some [JStr "Program"; JStr "Meeting"; JStr "Type"; JStr "Text"])
             [Some [JStr " Robotics "; JNum 1%float; JStr "Bring"; JStr " kit ";
                    JStr ""; JStr "dropped"; JStr "Tip"; JStr "smile";
                    JStr "odd"]]
             (Some [JStr "Robotics"; JStr "first"; JStr "Bring"; JStr "nothing"])
             [None; Some [JStr "Chess"; JStr "2"; JStr "Tip"; JStr "clock"]]).
    reflexivity.
  - pose proof (proj2 (proj2 (proj2 (proj2 (proj2 (loadRules_rows ∅)))))
                  (Some [JStr "Program"; JStr "Meeting"]) []
                  [JStr "Chess"; JStr "2"; JStr "Tip"; JStr "clock"] [])
      as Hkept.
    apply Hkept; [by vm_compute|reflexivity|right; reflexivity].
Defined.

(** The table of the sample rows: the header and the row with the meeting
    number "first" are not in it, and the notes are the complete pairs. *)
Example loadRules_sample :
  own (loadRules ∅ rule_rows)
  = {[ "robotics" := {[ "1" := [ {| type := "Bring"; text := "kit" |};
                                 {| type := "Tip"; text := "smile" |} ] ]};
       "chess" := {[ "2" := [ {| type := "Tip"; text := "clock" |} ] ]} ]}.
Proof. by vm_compute. Qed.

(** C7 as stated fails for a record whose stored hash does not decode to
    64 bytes: the id and the code are not empty, the record is found, and
    the answer is 500, neither 401 nor 200. *)
Lemma login_malformed_hash_500 :
  let req := login_request "1003" "abc123" in
  findInstructor world1 "1003" = Some (normalizeInstructor short_hash)
  /\ verifyPassword false (normalizeInstructor short_hash) "abc123"
     = Throw "Input buffers must have the same byte length"
  /\ status (fst (server false env1 req world1)) = 500.
Proof. by vm_compute. Qed.

Lemma login_status_witness :
  status (fst (server false env1 (login_request " " "abc123") world1)) = 400
  /\ snd (server false env1 (login_request " " "abc123") world1) = world1.
Proof.
  apply (proj1 (login_status false env1 (login_request " " "abc123") world1
                  (list_to_map [ ("employeeId", JStr " ");
                                 ("code", JStr "abc123") ])
                  eq_refl eq_refl eq_refl)).
  left. reflexivity.
Defined.

Example login_sample :
  fst (server false env1 (login_request " 1001" "abc123 ") world1)
  = sendJson 200 (Login (toHex demo_random) "Dana")
  /\ status (fst (server false env1 (login_request "1001" "abc124") world1))
     = 401
  /\ status (fst (server false env1 (login_request "1009" "abc123") world1))
     = 401.
Proof. by vm_compute. Qed.

(** C8 as stated fails when the sheet has two rows for one employee id:
    the snapshot then has two records with the id "1001". *)
Lemma loadData_duplicate_employee_id :
  map employeeIdOf
      (instructors (dataStore (snd (loadData sheets_twice world0))))
  = ["1001"; "1001"]
  /\ ~ NoDup (map employeeIdOf
                (instructors (dataStore (snd (loadData sheets_twice world0))))).
Proof.
  assert (Hids : map employeeIdOf
                   (instructors (dataStore (snd (loadData sheets_twice world0))))
                 = ["1001"; "1001"]) by (by vm_compute).
  split; [exact Hids|]. rewrite Hids.
  intros [Hnotin _]%NoDup_cons. apply Hnotin. left.
Qed.

Lemma loadData_instructor_records_witness :
  length (instructors (dataStore (snd (loadData sheets_twice world0)))) = 2.
Proof.
  destruct (loadData_instructor_records sheets_twice world0 [dana; dan]
              eq_refl eq_refl) as (_ & Hlen & _).
  exact Hlen.
Defined.

(** C10 as stated fails for a date that does not parse in a cancelled
    field-group: group 1 of [cancelled_soon] has the date "soon", which
    has a value and is no date, and extraction returns a list, with the
    activity of group 2. *)
Lemma extractActivities_cancelled_unparseable :
  hasValue (dateFieldOf cancelled_soon 1) = true
  /\ date_to_iso (dateFieldOf cancelled_soon 1) = None
  /\ exists activities,
       extractActivities cancelled_soon = Ok activities
       /\ map meetingNumber activities = [2].
Proof.
  split; [reflexivity|]. split; [reflexivity|].
  eexists. split; [by vm_compute|reflexivity].
Qed.

Lemma schedule_invalid_date_witness :
  (extractActivities (normalizeInstructor noam) = Throw "Invalid time value"
   /\ status (fst (server false env1 (schedule_request (toHex demo_random))
                          world2)) = 500)
  /\ is_ok (extractActivities cancelled_soon) = true.
Proof.
  split.
  - destruct (proj1 (schedule_invalid_date false env1
                       (schedule_request (toHex demo_random)) world2
                       (toHex demo_random) noam_session
                       (normalizeInstructor noam)) 1)
      as [Hthrow Hserver]; [lia|reflexivity|reflexivity|].
    split; [exact Hthrow|]. rewrite Hserver; [reflexivity..| |reflexivity].
    vm_compute; congruence.
  - apply (proj2 (proj1 (proj2 (schedule_invalid_date false env1
                                  (schedule_request "") world0 "" noam_session
                                  cancelled_soon)))).
    intros j Hj Hem.
    do 17 (destruct j as [|j];
           [try lia; vm_compute in Hem; vm_compute; congruence|]).
    lia.
Defined.

End Examples.

(** ** Further properties: values and activity extraction *)

Section ValueFacts.
Import Js Verifier Activities.
Context `{Runtime}.

Lemma append_empty (s : string) : "" ++ s = s.
Proof. reflexivity. Qed.

Lemma append_String a (p s : string) : String a p ++ s = String a (p ++ s).
Proof. reflexivity. Qed.

Lemma trimEnd_last s : forall p c,
  trimEnd s = p ++ String c "" -> is_white c = false.
Proof.
  induction s as [|a r IH]; intros p c Heq.
  - by destruct p.
  - simpl in Heq. destruct (trimEnd r) as [|b r'] eqn:Hr.
    + destruct (is_white a) eqn:Ha; [by destruct p|].
      destruct p as [|a' p]; [rewrite append_empty in Heq; congruence|].
      rewrite append_String in Heq. injection Heq as _ Heq. by destruct p.
    + destruct p as [|a' p]; [rewrite append_empty in Heq; congruence|].
      rewrite append_String in Heq. injection Heq as _ Heq.
      by apply (IH p c).
Qed.

Lemma trim_first s c r : trim s = String c r -> is_white c = false.
Proof.
  unfold trim. destruct (trimStart_head s) as [Hs|(c' & r' & Hs & Hc)];
    rewrite Hs; [done|].
  rewrite trimEnd_keeps_head by done. congruence.
Qed.

(** X1. What [cleanValue] returns has no white space at either end, and
    cleaning it again changes nothing; [hasValue] holds exactly when it is
    not empty. *)
Theorem cleanValue_clean (value : JsVal) :
  cleanValue (JStr (cleanValue value)) = cleanValue value
  /\ (forall c r, cleanValue value = String c r -> is_white c = false)
  /\ (forall p c, cleanValue value = p ++ String c "" -> is_white c = false)
  /\ (hasValue value = true <-> cleanValue value <> "").
Proof.
  split; [apply cleanValue_trimmed|]. split; [|split].
  - intros c r. destruct value; simpl; try done; apply trim_first.
  - intros p c.
    destruct value; simpl; try (by destruct p); apply trimEnd_last.
  - unfold hasValue. destruct value; simpl; try done;
      rewrite negb_true_iff, bool_decide_eq_false; done.
Qed.

(** The key of an activity is the key a rule row gets from the same cell:
    the second trimming on the activity side changes nothing. *)
Lemma activity_key_is_rule_key (row : Row) i iso :
  programKey (activityOf row i iso)
  = normalizeProgramName (column row "Program" i (JStr "")).
Proof.
  unfold activityOf, normalizeProgramName. cbn [programKey].
  f_equal. apply cleanValue_trimmed.
Qed.

End ValueFacts.

Section ExtractionFacts.
Import Js Verifier Activities.
Context `{Runtime}.

Lemma hasValue_or_undefined v :
  hasValue (or_else v JUndefined) = truthy v && hasValue v.
Proof. unfold or_else. by destruct (truthy v). Qed.

(** X2. For the field-groups 2 to 16 a cell counts as present only when it
    is true as a condition and has a value: a date cell that is [false],
    0 or empty gives no activity, and a cancellation cell that is [false]
    or 0 does not cancel, although [hasValue] holds of it. *)
Theorem emitted_later_group (row : Row) i :
  i <> 1 ->
  let dateCell := get row ("Date" ++ pretty i) in
  let cancelCell := get row ("Cancel" ++ pretty i) in
  emitted row i
  = (truthy dateCell && hasValue dateCell)
    && negb (truthy cancelCell && hasValue cancelCell)
  /\ (truthy dateCell = false -> emitted row i = false)
  /\ (truthy cancelCell = false ->
      emitted row i = truthy dateCell && hasValue dateCell).
Proof.
  intros Hi dateCell cancelCell.
  assert (Hem : emitted row i
                = (truthy dateCell && hasValue dateCell)
                  && negb (truthy cancelCell && hasValue cancelCell)).
  { unfold emitted, dateFieldOf, cancelFieldOf.
    rewrite !column_later by done. by rewrite !hasValue_or_undefined. }
  split; [done|]. rewrite Hem. split; intros ->; [done|].
  by rewrite andb_true_r.
Qed.

Lemma extractActivities_cases (row : Row) :
  ((forall i, 1 <= i <= 16 -> emitted row i = true ->
              date_to_iso (dateFieldOf row i) <> None)
   /\ extractActivities row = Ok (concat (map (pushed row) (seq 1 16))))
  \/ ((exists k, 1 <= k <= 16 /\ emitted row k = true
                 /\ date_to_iso (dateFieldOf row k) = None)
      /\ extractActivities row = Throw "Invalid time value").
Proof.
  set (bad := fun i => emitted row i
                       && negb (bool_decide
                                  (is_Some (date_to_iso (dateFieldOf row i))))).
  destruct (List.find bad (seq 1 16)) as [k|] eqn:Hfind.
  - right. apply find_first in Hfind as (Hbad & before & after & Hsplit & _).
    assert (Hk : k ∈ seq 1 16) by (rewrite Hsplit; set_solver).
    apply elem_of_seq in Hk. unfold bad in Hbad.
    apply andb_true_iff in Hbad as [Hem Hiso].
    apply negb_true_iff, bool_decide_eq_false in Hiso.
    assert (Hnone : date_to_iso (dateFieldOf row k) = None).
    { destruct (date_to_iso (dateFieldOf row k)); [|done].
      exfalso. apply Hiso. by eexists. }
    split; [exists k; split; [lia|done]|].
    apply (extractLoop_throws row 16 1 [] k); [lia|done|done].
  - left. rewrite find_none in Hfind.
    assert (Hparse : forall i, 1 <= i <= 16 -> emitted row i = true ->
                       date_to_iso (dateFieldOf row i) <> None).
    { intros i Hi Hem Hnone.
      assert (Hbad : bad i = true) by (unfold bad; by rewrite Hem, Hnone).
      rewrite Hfind in Hbad; [done|]. apply elem_of_seq. lia. }
    split; [done|]. unfold extractActivities.
    rewrite extractLoop_total; [done|]. intros k Hk. apply Hparse. lia.
Qed.

Lemma filter_sublist {A} (p : A -> bool) (l : list A) :
  sublist (List.filter p l) l.
Proof.
  induction l as [|a l IH]; [constructor|].
  simpl. destruct (p a); by constructor.
Qed.

(** X3. [extractActivities] returns a list exactly when the date of every
    field-group let through parses; when it throws, the message is always
    that of the invalid date; and a list it returns has its meeting
    numbers as a sublist of 1, ..., 16: at most 16 activities, in
    increasing order, none twice. *)
Theorem extractActivities_returns_iff (row : Row) :
  (is_ok (extractActivities row) = true <->
   forall i, 1 <= i <= 16 -> emitted row i = true ->
             date_to_iso (dateFieldOf row i) <> None)
  /\ (forall e, extractActivities row = Throw e -> e = "Invalid time value")
  /\ (forall activities,
        extractActivities row = Ok activities ->
        sublist (map meetingNumber activities) (seq 1 16)
        /\ length activities <= 16).
Proof.
  destruct (extractActivities_cases row)
    as [[Hparse Hok]|[(k & Hk & Hem & Hnone) Hthrow]].
  - rewrite Hok. split; [done|]. split; [done|].
    intros activities [= <-].
    assert (Hsub : sublist (map meetingNumber (concat (map (pushed row) (seq 1 16))))
                           (seq 1 16)).
    { rewrite pushed_numbers; [apply filter_sublist|].
      intros i Hi%elem_of_seq. apply Hparse. lia. }
    split; [done|]. apply sublist_length in Hsub.
    by rewrite length_map, length_seq in Hsub.
  - rewrite Hthrow. split; [|split; [by intros e [= <-]|done]].
    split; [done|]. intros Hparse. exfalso. by apply (Hparse k).
Qed.


End ExtractionFacts.

(** ** Further properties: the verifier and the loader *)

Section VerifierMore.
Import Js Buffer Verifier Loader.
Context `{Runtime}.

Lemma verifyPassword_no_salt legacy row code :
  saltOf row = "" ->
  verifyPassword legacy row code
  = if legacy && nonempty (cleanValue (get row "Code"))
    then Ok (bool_decide (sha256_hex code = cleanValue (get row "Code")))
    else Ok false.
Proof.
  intros Hs. apply nonempty_false in Hs. unfold verifyPassword.
  fold (saltOf row). rewrite Hs. by rewrite andb_false_r.
Qed.

(** X5. The legacy flag matters only for a record without salt: with a
    salt both values of the flag give the same outcome; without a salt
    (even with a strong hash) the record is refused when the flag is off,
    and accepted when it is on exactly when it has a Code value that is
    the unsalted SHA-256 of the submitted code. *)
Theorem verifyPassword_flag (row : Row) code :
  (saltOf row <> "" ->
   verifyPassword true row code = verifyPassword false row code)
  /\ (saltOf row = "" -> verifyPassword false row code = Ok false)
  /\ (saltOf row = "" ->
      (verifyPassword true row code = Ok true <->
       cleanValue (get row "Code") <> ""
       /\ sha256_hex code = cleanValue (get row "Code"))).
Proof.
  split; [|split].
  - intros Hs. apply nonempty_true in Hs. unfold verifyPassword.
    fold (saltOf row) (scryptHashOf row). rewrite Hs.
    destruct (nonempty (scryptHashOf row)); [done|]. cbn [andb].
    by destruct (nonempty (cleanValue (get row "Code"))).
  - intros Hs. by rewrite verifyPassword_no_salt.
  - intros Hs. rewrite verifyPassword_no_salt by done. cbn [andb].
    destruct (nonempty (cleanValue (get row "Code"))) eqn:Hc.
    + apply nonempty_true in Hc. split.
      * intros [= Heq]. by apply bool_decide_eq_true in Heq.
      * intros [_ Heq]. by rewrite bool_decide_eq_true_2.
    + apply nonempty_false in Hc. split; [done|]. by intros [? _].
Qed.

(** X6. [verifyPassword] throws exactly when the record has a strong hash
    and a salt and the stored hash does not decode to 64 bytes; the
    exception is the one of the comparison of buffers of unequal length. *)
Theorem verifyPassword_throws_iff legacy (row : Row) code :
  ((exists e, verifyPassword legacy row code = Throw e) <->
   scryptHashOf row <> "" /\ saltOf row <> ""
   /\ length (fromHex (scryptHashOf row)) <> 64)
  /\ (forall e, verifyPassword legacy row code = Throw e ->
                e = "Input buffers must have the same byte length").
Proof.
  assert (Hcases :
    (scryptHashOf row <> "" /\ saltOf row <> ""
     /\ verifyPassword legacy row code
        = timingSafeEqual (scryptSync code (saltOf row) 64)
                          (fromHex (scryptHashOf row)))
    \/ ((scryptHashOf row = "" \/ saltOf row = "")
        /\ exists b, verifyPassword legacy row code = Ok b)).
  { destruct (decide (scryptHashOf row = "")) as [Hh|Hh];
      [|destruct (decide (saltOf row = "")) as [Hs|Hs]].
    - right. split; [by left|]. apply nonempty_false in Hh.
      unfold verifyPassword. fold (scryptHashOf row). rewrite Hh. cbn [andb].
      repeat case_match; by eexists.
    - right. split; [by right|]. rewrite verifyPassword_no_salt by done.
      case_match; by eexists.
    - left. split; [done|]. split; [done|].
      by apply verifyPassword_strong_branch. }
  destruct Hcases as [(Hh & Hs & ->)|[Hno [b ->]]].
  - unfold timingSafeEqual. rewrite scryptSync_length.
    destruct (64 =? length (fromHex (scryptHashOf row)))%nat eqn:Hlen.
    + apply Nat.eqb_eq in Hlen. split; [|done].
      split; [by intros [? [=]]|]. intros (_ & _ & Hne). by rewrite <- Hlen in Hne.
    + apply Nat.eqb_neq in Hlen. split; [|by intros e [= <-]].
      split; [|by eexists]. intros _. split; [done|]. split; [done|].
      by intros Heq; rewrite Heq in Hlen.
  - split; [|done]. split; [by intros [? [=]]|].
    intros (Hh & Hs & _). by destruct Hno.
Qed.

(** X7. With a strong hash and a salt the Code column has no part in the
    outcome: writing any value to it, or removing it, changes nothing. *)
Theorem verifyPassword_ignores_code legacy (row : Row) code v :
  scryptHashOf row <> "" -> saltOf row <> "" ->
  verifyPassword legacy (<["Code" := v]> row) code
  = verifyPassword legacy row code
  /\ verifyPassword legacy (delete "Code" row) code
     = verifyPassword legacy row code.
Proof.
  intros Hh Hs.
  assert (Hh1 : scryptHashOf (<["Code" := v]> row) = scryptHashOf row).
  { unfold scryptHashOf. by rewrite !get_insert_ne. }
  assert (Hs1 : saltOf (<["Code" := v]> row) = saltOf row).
  { unfold saltOf. by rewrite get_insert_ne. }
  assert (Hh2 : scryptHashOf (delete "Code" row) = scryptHashOf row).
  { unfold scryptHashOf. by rewrite !get_delete_ne. }
  assert (Hs2 : saltOf (delete "Code" row) = saltOf row).
  { unfold saltOf. by rewrite get_delete_ne. }
  rewrite !verifyPassword_strong_branch by congruence.
  by rewrite Hh1, Hs1, Hh2, Hs2.
Qed.

(** X8. A row with a Code value and no stored hash: after the loader has
    normalized it, the Code column is gone, [verifyPassword] never throws
    on it, accepts the trimmed Code value itself, and accepts a submitted
    code exactly when scrypt derives from it, with the salt of the record,
    the bytes it derives from that value. *)
Theorem normalizeInstructor_code_verifies legacy (row : Row) :
  scryptHashOf row = "" -> cleanValue (get row "Code") <> "" ->
  let record := normalizeInstructor row in
  let codeValue := cleanValue (get row "Code") in
  record !! "Code" = None
  /\ verifyPassword legacy record codeValue = Ok true
  /\ (forall code,
        verifyPassword legacy record code
        = Ok (bool_decide (scryptSync code (saltOf record) 64
                           = scryptSync codeValue (saltOf record) 64))).
Proof.
  intros Hh Hc record codeValue.
  destruct (salt_choice_trimmed row) as [Hsne Hstrim]. simpl in Hsne, Hstrim.
  set (salt := if nonempty (cleanValue (get row "Salt")) then _ else _) in *.
  assert (Hrecord : record
    = delete "Code"
        (<["PasswordHash" := JStr (toHex (scryptSync codeValue salt 64))]>
           (<["Salt" := JStr salt]> row))).
  { subst record. unfold normalizeInstructor. fold salt.
    fold (scryptHashOf row). rewrite Hh. cbn [nonempty bool_decide].
    apply nonempty_true in Hc. fold codeValue in Hc |- *.
    change (nonempty "") with false. cbn iota. by rewrite Hc. }
  assert (Hsalt : saltOf record = salt).
  { unfold saltOf. rewrite Hrecord, get_delete_ne, get_insert_ne by done.
    rewrite get_insert_eq. apply Hstrim. }
  assert (Hhex : toHex (scryptSync codeValue salt 64) <> "").
  { apply toHex_nonempty. intros Hnil.
    pose proof (scryptSync_length codeValue salt 64) as Hl.
    by rewrite Hnil in Hl. }
  assert (Hhash : scryptHashOf record = toHex (scryptSync codeValue salt 64)).
  { rewrite (scryptHashOf_stored record _ Hhex).
    - apply trim_toHex.
    - rewrite Hrecord, get_delete_ne by done. apply get_insert_eq. }
  assert (Hverify : forall code,
            verifyPassword legacy record code
            = Ok (bool_decide (scryptSync code salt 64
                               = scryptSync codeValue salt 64))).
  { intros code. rewrite verifyPassword_strong_branch by congruence.
    rewrite Hhash, Hsalt, fromHex_toHex.
    apply timingSafeEqual_same_length. by rewrite !scryptSync_length. }
  split; [|split].
  - rewrite Hrecord. apply lookup_delete_eq.
  - rewrite Hverify. by rewrite bool_decide_eq_true_2.
  - intros code. by rewrite Hsalt.
Qed.

End VerifierMore.

(** ** Further properties: global messages and program rules *)

Section TableFacts.
Import Js Verifier Rules RuleTable RuleInvariant.
Context `{Runtime}.

Lemma loadMessages_app (rows1 rows2 : list Row) :
  Messages.loadMessages (rows1 ++ rows2)%list
  = (Messages.loadMessages rows1 ++ Messages.loadMessages rows2)%list.
Proof. unfold Messages.loadMessages. by rewrite List.filter_app, map_app. Qed.

(** X9. Every global message of a snapshot has a trimmed message text
    that is not empty and a trimmed type that is not empty, "Info" when
    the row gives none; the messages keep the order of the rows, and a row
    without message text is dropped without any effect on the others. *)
Theorem loadMessages_messages (rows1 rows2 : list Row) (r : Row) :
  Forall (fun m => Messages.message m <> "" /\ trim (Messages.message m) = Messages.message m
                   /\ Messages.type m <> "" /\ trim (Messages.type m) = Messages.type m)
         (Messages.loadMessages rows1)
  /\ Messages.loadMessages (rows1 ++ rows2)%list
     = (Messages.loadMessages rows1 ++ Messages.loadMessages rows2)%list
  /\ Messages.loadMessages (rows1 ++ r :: rows2)%list
     = (Messages.loadMessages rows1
        ++ (if nonempty (cleanValue (get r "Message"))
            then [{| Messages.message := cleanValue (get r "Message");
                     Messages.type := if nonempty (cleanValue (get r "Type"))
                             then cleanValue (get r "Type") else "Info" |}]
            else [])
        ++ Messages.loadMessages rows2)%list
  /\ length (Messages.loadMessages rows1) <= length rows1.
Proof.
  split; [|split; [apply loadMessages_app|split]].
  - induction rows1 as [|row rows IH]; [constructor|].
    unfold Messages.loadMessages in *. cbn [List.filter].
    destruct (nonempty (cleanValue (get row "Message"))) eqn:Hm; [|done].
    cbn [map]. constructor; [|done]. cbn [Messages.message Messages.type].
    apply nonempty_true in Hm. split; [done|].
    split; [apply cleanValue_trimmed|].
    destruct (nonempty (cleanValue (get row "Type"))) eqn:Ht; [|done].
    apply nonempty_true in Ht. split; [done|]. apply cleanValue_trimmed.
  - rewrite loadMessages_app. f_equal.
    change (r :: rows2) with ([r] ++ rows2)%list. rewrite loadMessages_app.
    f_equal. unfold Messages.loadMessages. cbn [List.filter].
    by destruct (nonempty (cleanValue (get r "Message"))).
  - unfold Messages.loadMessages. rewrite length_map. apply List.filter_length_le.
Qed.

(** The notes of the specification's pairs are complete pairs. *)
Lemma pairedNotes_complete n : forall cells,
  length cells <= n ->
  Forall (fun note => type note <> "" /\ trim (type note) = type note
                      /\ text note <> "" /\ trim (text note) = text note)
         (pairedNotes cells)
  /\ 2 * length (pairedNotes cells) <= length cells.
Proof.
  induction n as [|n IH]; intros cells Hlen.
  - destruct cells; [|simpl in Hlen; lia]. split; [constructor|simpl; lia].
  - destruct cells as [|t [|x rest]]; [split; [constructor|simpl; lia]..|].
    destruct (IH rest) as [Hall Hcount]; [simpl in Hlen; lia|].
    cbn [pairedNotes].
    destruct (nonempty (cleanValue t)) eqn:Ht;
      [destruct (nonempty (cleanValue x)) eqn:Hx|]; cbn [andb].
    + apply nonempty_true in Ht, Hx. split.
      * constructor; [|done]. cbn [type text].
        repeat split; try done; apply cleanValue_trimmed.
      * simpl. lia.
    + split; [done|]. simpl. lia.
    + split; [done|]. simpl. lia.
Qed.

(** X10. The notes of a program-rule row all have a type and a text that
    are trimmed and not empty, and there are at most half as many of them
    as the row has cells after the second. *)
Theorem notesOfRow_notes (row : list JsVal) :
  Forall (fun note => type note <> "" /\ trim (type note) = type note
                      /\ text note <> "" /\ trim (text note) = text note)
         (notesOfRow row)
  /\ 2 * length (notesOfRow row) <= length row - 2.
Proof.
  rewrite notesOfRow_paired.
  destruct (pairedNotes_complete (length (drop 2 row)) (drop 2 row))
    as [Hall Hcount]; [done|].
  split; [done|]. by rewrite length_drop in Hcount.
Qed.

Lemma ruleStep_skipped heap r :
  skipped (prototypeArrays heap) r = true -> ruleStep heap r = heap.
Proof. unfold skipped, rowKey, rowMeeting, ruleStep. by intros ->. Qed.

(** One round leaves the notes of every other program and meeting. *)
Lemma ruleStep_other heap r programKey meetingKey :
  skipped (prototypeArrays heap) r = true
  \/ rowKey (prototypeArrays heap) r <> programKey
  \/ number_to_string (rowMeeting (prototypeArrays heap) r) <> meetingKey ->
  notesAt (ruleStep heap r) programKey meetingKey
  = notesAt heap programKey meetingKey.
Proof.
  intros Hother. destruct (skipped (prototypeArrays heap) r) eqn:Hskip;
    [by rewrite ruleStep_skipped|].
  destruct Hother as [?|Hother]; [done|].
  unfold skipped, rowKey, rowMeeting in *. unfold ruleStep. rewrite Hskip.
  unfold notesAt.
  destruct (own heap !! normalizeProgramName
                          (cellIn (prototypeArrays heap) (default [] r) 0))
    as [rules|] eqn:Hown; cbn [own].
  - destruct (decide (normalizeProgramName
                        (cellIn (prototypeArrays heap) (default [] r) 0)
                      = programKey)) as [<-|Hne].
    + rewrite lookup_insert_eq, Hown. simpl.
      destruct Hother as [?|Hm]; [done|]. by rewrite lookup_insert_ne.
    + by rewrite lookup_insert_ne.
  - destruct (inheritsName heap _); [by repeat case_match|]. cbn [own].
    destruct (decide (normalizeProgramName
                        (cellIn (prototypeArrays heap) (default [] r) 0)
                      = programKey)) as [<-|Hne].
    + rewrite lookup_insert_eq, Hown. simpl.
      destruct Hother as [?|Hm]; [done|]. by rewrite lookup_singleton_ne.
    + by rewrite lookup_insert_ne.
Qed.

Lemma foldl_ruleStep_other rows : forall heap programKey meetingKey,
  elsewhere heap programKey meetingKey rows = true ->
  notesAt (foldl ruleStep heap rows) programKey meetingKey
  = notesAt heap programKey meetingKey.
Proof.
  induction rows as [|r rows IH]; intros heap programKey meetingKey Hall;
    [done|].
  cbn [elsewhere] in Hall. apply andb_true_iff in Hall as [Hr Hrows].
  cbn [foldl]. rewrite IH by done. apply ruleStep_other.
  apply orb_true_iff in Hr as [Hr|Hr]; [apply orb_true_iff in Hr as [Hr|Hr]|].
  - by left.
  - right; left. by apply negb_true_iff, bool_decide_eq_false_1 in Hr.
  - right; right. by apply negb_true_iff, bool_decide_eq_false_1 in Hr.
Qed.

(** X11. A row that is kept, for a program key that is an own property of
    the table or is not inherited, stores its notes under its program key
    and meeting key whatever was there; the rows after it that are skipped
    or are for another program or meeting leave these notes, so the table
    holds, for a program and a meeting, the notes of the last row for
    them. What a row is for is read as the loop reads it when it comes to
    the row. *)
Theorem ruleStep_last_row_wins heap (row : list JsVal) after :
  let programKey := rowKey (prototypeArrays heap) (Some row) in
  let meetingKey :=
    number_to_string (rowMeeting (prototypeArrays heap) (Some row)) in
  skipped (prototypeArrays heap) (Some row) = false ->
  is_Some (own heap !! programKey) \/ inheritsName heap programKey = false ->
  elsewhere (ruleStep heap (Some row)) programKey meetingKey after = true ->
  notesAt (foldl ruleStep heap (Some row :: after)) programKey meetingKey
  = Some (pairedNotes (drop 2 row)).
Proof.
  intros programKey meetingKey Hkept Hfresh Hafter. cbn [foldl].
  rewrite foldl_ruleStep_other by done. subst programKey meetingKey.
  unfold skipped, rowKey, rowMeeting in *.
  change (default [] (Some row)) with row in *.
  apply orb_false_iff in Hkept as [Hkey Hnum].
  apply negb_false_iff in Hkey, Hnum. apply nonempty_true in Hkey.
  rewrite ruleStep_kept by done. unfold notesAt. cbn [own].
  rewrite lookup_insert_eq. simpl. by rewrite lookup_insert_eq.
Qed.

Lemma ruleStep_clean_keys names heap r :
  clean_keys names heap -> clean_keys names (ruleStep heap r).
Proof.
  intros [Hsub Hkeys]. destruct (skipped (prototypeArrays heap) r) eqn:Hskip;
    [by rewrite ruleStep_skipped|].
  unfold skipped, rowKey, rowMeeting in Hskip. unfold ruleStep.
  rewrite Hskip. apply orb_false_iff in Hskip as [Hkey _].
  apply negb_false_iff, nonempty_true in Hkey.
  destruct (own heap !! normalizeProgramName
                          (cellIn (prototypeArrays heap) (default [] r) 0))
    as [rules|] eqn:Hown.
  - split; [done|]. cbn [own]. intros key [v Hv].
    destruct (decide (normalizeProgramName
                        (cellIn (prototypeArrays heap) (default [] r) 0) = key))
      as [<-|Hne]; [by apply Hkeys|].
    rewrite lookup_insert_ne in Hv by done. by apply Hkeys.
  - destruct (inheritsName heap _) eqn:Hinh.
    + assert (Hgrow : forall name array,
                names ⊆ dom (<[name := array]> (prototypeArrays heap))).
      { intros name array. rewrite dom_insert.
        etrans; [exact Hsub|apply union_subseteq_r]. }
      repeat case_match; (split; [|done]); first [apply Hgrow|done].
    + split; [done|]. cbn [own]. intros key [v Hv].
      destruct (decide (normalizeProgramName
                          (cellIn (prototypeArrays heap) (default [] r) 0) = key))
        as [<-|Hne].
      * unfold inheritsName in Hinh. apply orb_false_iff in Hinh as [Hb Hp].
        apply bool_decide_eq_false in Hb, Hp. split; [done|].
        split; [done|]. intros Hin. by apply Hp, Hsub.
      * rewrite lookup_insert_ne in Hv by done. by apply Hkeys.
Qed.

(** X12. No program key of a loaded table is empty or is a name that the
    table inherits from [Object.prototype], as "constructor" or
    "__proto__", at the start or added by an earlier load: the rows of a
    program with such a name are lost. *)
Theorem loadRules_no_inherited_key
    (prototype : gmap string ProtoArray) programRows key :
  key = "" \/ key ∈ OBJECT_PROTOTYPE_NAMES \/ key ∈ dom prototype ->
  own (loadRules prototype programRows) !! key = None
  /\ forall meetingKey,
       notesAt (loadRules prototype programRows) key meetingKey = None.
Proof.
  intros Hkey.
  assert (Hclean : clean_keys (dom prototype) (loadRules prototype programRows)).
  { unfold loadRules. generalize (drop 1 programRows). intros rows.
    assert (Hstart : clean_keys (dom prototype)
                       {| own := ∅; prototypeArrays := prototype |}).
    { split; [done|]. cbn [own]. intros k [v Hv].
      by rewrite lookup_empty in Hv. }
    revert Hstart. generalize {| own := ∅; prototypeArrays := prototype |}.
    induction rows as [|r rows IH]; intros heap Hheap; [done|].
    cbn [foldl]. apply IH. by apply ruleStep_clean_keys. }
  assert (Hnone : own (loadRules prototype programRows) !! key = None).
  { destruct (own (loadRules prototype programRows) !! key) eqn:Hown; [|done].
    destruct Hclean as [_ Hkeys].
    destruct (Hkeys key) as (H1 & H2 & H3); [by eexists|]. tauto. }
  split; [done|]. intros meetingKey. unfold notesAt. by rewrite Hnone.
Qed.

End TableFacts.

(** ** Further properties: the session store *)

Section SessionMore.
Import Js Buffer Sessions.

Lemma toHex_inj a b : toHex a = toHex b -> a = b.
Proof.
  intros Heq. rewrite <- (fromHex_toHex a), <- (fromHex_toHex b).
  by rewrite Heq.
Qed.

Lemma startsWith_split p : forall s,
  startsWith p s = true -> s = p ++ slice (String.length p) s.
Proof.
  induction p as [|a p IH]; intros s Hs; [done|].
  destruct s as [|b s]; [done|]. simpl in Hs.
  apply andb_true_iff in Hs as [Hab Hs]. apply bool_decide_eq_true in Hab.
  subst b. cbn [String.length slice]. rewrite append_String. f_equal.
  by apply IH.
Qed.

(** The token [getSession] reads from the header. *)
Lemma getSession_token now authorization sessions :
  exists token,
    getSession now authorization sessions
    = match sessions !! token with
      | None => (None, sessions)
      | Some session =>
          if (expiresAt session <? now)%Z then (None, delete token sessions)
          else (Some (token, session), sessions)
      end
    /\ (token = "" \/ authorization = Some ("Bearer " ++ token)).
Proof.
  unfold getSession.
  destruct (startsWith "Bearer " (default "" authorization)) eqn:Hb.
  - exists (slice 7 (default "" authorization)). split; [done|]. right.
    apply startsWith_split in Hb. destruct authorization as [a|]; [|done].
    simpl in *. by f_equal.
  - exists "". split; [done|by left].
Qed.

(** X13. Creating a session leaves the sessions of all other tokens as
    they are, and their resolution too; two draws of random bytes that
    differ give tokens that differ, so the new session replaces an old one
    only when the same bytes are drawn again. *)
Theorem createSession_other_sessions now random id name
    (sessions : gmap string Session) token t :
  token <> toHex random ->
  let sessions' := snd (createSession now random id name sessions) in
  sessions' !! token = sessions !! token
  /\ fst (getSession t (Some ("Bearer " ++ token)) sessions')
     = fst (getSession t (Some ("Bearer " ++ token)) sessions)
  /\ (forall random', random' <> random -> toHex random' <> toHex random).
Proof.
  intros Hne sessions'.
  assert (Hother : sessions' !! token = sessions !! token).
  { subst sessions'. unfold createSession. cbn [snd].
    by rewrite lookup_insert_ne. }
  split; [done|]. split.
  - unfold getSession.
    change (default "" (Some ("Bearer " ++ token))) with ("Bearer " ++ token).
    rewrite bearer_token, Hother. destruct (sessions !! token); [|done].
    by case_match.
  - intros random' Hr Heq. by apply Hr, toHex_inj.
Qed.

(** X14. [getSession] returns a session only for the header "Bearer "
    followed by a token of the store whose session has not expired, and
    then leaves the store as it is; otherwise the store is unchanged or
    has lost that one token, which had expired; no other entry changes. A
    request without such a header resolves the empty token, so it gets
    none as long as no session is stored under the empty token. *)
Theorem getSession_effects now authorization
    (sessions : gmap string Session) :
  let result := fst (getSession now authorization sessions) in
  let sessions' := snd (getSession now authorization sessions) in
  (forall token session,
      result = Some (token, session) ->
      sessions !! token = Some session /\ (now <= expiresAt session)%Z
      /\ sessions' = sessions
      /\ (token = "" \/ authorization = Some ("Bearer " ++ token)))
  /\ (sessions' = sessions
      \/ exists token session,
           sessions !! token = Some session /\ (expiresAt session < now)%Z
           /\ result = None /\ sessions' = delete token sessions)
  /\ (forall token, sessions' !! token = None
                    \/ sessions' !! token = sessions !! token)
  /\ (sessions !! "" = None ->
      (forall token, authorization <> Some ("Bearer " ++ token)) ->
      result = None /\ sessions' = sessions).
Proof.
  intros result sessions'. subst result sessions'.
  destruct (getSession_token now authorization sessions) as (token & -> & Hauth).
  destruct (sessions !! token) as [session|] eqn:Hin.
  - destruct (expiresAt session <? now)%Z eqn:Hexp; cbn [fst snd].
    + apply Z.ltb_lt in Hexp. split; [done|]. split; [|split].
      * right. by exists token, session.
      * intros token'. destruct (decide (token = token')) as [<-|Hne];
          [left; apply lookup_delete_eq|right; by apply lookup_delete_ne].
      * intros Hempty Hno. destruct Hauth as [->|Hauth]; [congruence|].
        by destruct (Hno token).
    + apply Z.ltb_ge in Hexp. split; [|split; [by left|split; [by right|]]].
      * by intros ? ? [= <- <-].
      * intros Hempty Hno. destruct Hauth as [->|Hauth]; [congruence|].
        by destruct (Hno token).
  - cbn [fst snd]. split; [done|]. split; [by left|]. split; [by right|done].
Qed.

End SessionMore.

(** ** Further properties: the request handler *)

Section ServerMore.
Import Js Buffer Verifier Loader Server ServerInvariant.
Context `{Runtime}.

Lemma dispatch_logout legacy env req w :
  method req = "POST" -> url req = "/api/logout" ->
  dispatch legacy env req w = logout env req w.
Proof. intros Hm Hu. unfold dispatch. by rewrite Hm, Hu. Qed.

Lemma getSession_store now authorization
    (sessions : gmap string Sessions.Session) token session :
  snd (Sessions.getSession now authorization sessions) !! token = Some session ->
  sessions !! token = Some session.
Proof.
  destruct (getSession_token now authorization sessions) as (tok & -> & _).
  destruct (sessions !! tok) as [s|] eqn:Hin; [|done].
  destruct (Sessions.expiresAt s <? now)%Z; [|done]. cbn [snd].
  intros Hlook. apply lookup_delete_Some in Hlook. tauto.
Qed.

(** What [login] does to the state and which status it answers. *)
Lemma login_outcome legacy env req w :
  (exists response,
      login legacy env req w = (Ok response, w)
      /\ (status response = 400 \/ status response = 401)
      /\ forall file, payload response <> File file)
  \/ (exists e, login legacy env req w = (Throw e, w))
  \/ (exists fields row,
        body req = Ok (BodyObject fields)
        /\ cleanValue (get fields "employeeId") <> ""
        /\ cleanValue (get fields "code") <> ""
        /\ findInstructor w (cleanValue (get fields "employeeId")) = Some row
        /\ verifyPassword legacy row (cleanValue (get fields "code")) = Ok true
        /\ login legacy env req w
           = (Ok (sendJson 200 (Login (toHex (randomBytes env))
                                      (cleanValue (get row "Employee")))),
              with_sessions w
                (<[toHex (randomBytes env) :=
                     {| Sessions.employeeId := cleanValue (get fields "employeeId");
                        Sessions.employeeName := cleanValue (get row "Employee");
                        Sessions.expiresAt :=
                          (now env + Sessions.SESSION_TTL_MS)%Z |}]>
                   (sessions w)))).
Proof.
  unfold login. destruct (body req) as [[|fields]|e] eqn:Hbody.
  - right. left. by eexists.
  - destruct (nonempty (cleanValue (get fields "employeeId"))) eqn:Hid;
      [destruct (nonempty (cleanValue (get fields "code"))) eqn:Hcode|];
      cbn [negb orb].
    + destruct (findInstructor w _) as [row|] eqn:Hfind.
      * destruct (verifyPassword legacy row _) as [[|]|e] eqn:Hverify.
        -- right. right. exists fields, row.
           apply nonempty_true in Hid, Hcode. done.
        -- left. eexists. split; [done|]. split; [by right|done].
        -- right. left. by eexists.
      * left. eexists. split; [done|]. split; [by right|done].
    + left. eexists. split; [done|]. split; [by left|done].
    + left. eexists. split; [done|]. split; [by left|done].
  - right. left. by eexists.
Qed.

(** The branch the handler takes. *)
Lemma dispatch_cases legacy env req w :
  ((url req ∈ ["/InstructorData.xlsx"; "/ProgramRules.xlsx";
               "/GlobalMessages.xlsx"])
   /\ dispatch legacy env req w
      = (Ok (sendText 403 "Direct access to Excel files is forbidden."), w))
  \/ (method req = "POST" /\ url req = "/api/login"
      /\ dispatch legacy env req w = login legacy env req w)
  \/ (method req = "GET" /\ url req = "/api/me/schedule"
      /\ dispatch legacy env req w = schedule env req w)
  \/ (method req = "POST" /\ url req = "/api/logout"
      /\ dispatch legacy env req w = logout env req w)
  \/ (exists file,
        (url req, file) ∈ routes
        /\ dispatch legacy env req w = (Ok (serveFile env file), w))
  \/ ((url req ∉ map fst routes)
      /\ dispatch legacy env req w = (Ok (sendText 404 "Not found"), w)).
Proof.
  unfold dispatch.
  destruct (decide (url req ∈ ["/InstructorData.xlsx"; "/ProgramRules.xlsx";
                               "/GlobalMessages.xlsx"])) as [Hx|Hx].
  { left. split; [done|]. by rewrite bool_decide_eq_true_2. }
  rewrite (bool_decide_eq_false_2 _ Hx). right.
  destruct (decide (method req = "POST")) as [Hpost|Hpost];
    [rewrite (bool_decide_eq_true_2 _ Hpost)
    |rewrite (bool_decide_eq_false_2 _ Hpost)]; cbn [andb].
  - destruct (decide (url req = "/api/login")) as [Hu|Hu].
    { left. by rewrite (bool_decide_eq_true_2 _ Hu). }
    rewrite (bool_decide_eq_false_2 _ Hu). right.
    assert (Hget : bool_decide (method req = "GET") = false)
      by (by rewrite Hpost).
    rewrite Hget. cbn [andb]. right.
    destruct (decide (url req = "/api/logout")) as [Hl|Hl].
    { left. by rewrite (bool_decide_eq_true_2 _ Hl). }
    rewrite (bool_decide_eq_false_2 _ Hl). right.
    destruct (List.find _ routes) as [[u file]|] eqn:Hfind.
    + left. exists file. split; [|done].
      apply find_first in Hfind as (Hp & before & after & -> & _).
      apply bool_decide_eq_true in Hp. simpl in Hp. subst u. set_solver.
    + right. split; [|done]. rewrite find_none in Hfind.
      intros ([u file] & Hu' & Hin)%list_elem_of_fmap. simpl in Hu'.
      specialize (Hfind _ Hin). apply bool_decide_eq_false in Hfind.
      by apply Hfind.
  - right.
    destruct (decide (method req = "GET")) as [Hg|Hg];
      [rewrite (bool_decide_eq_true_2 _ Hg)
      |rewrite (bool_decide_eq_false_2 _ Hg)]; cbn [andb].
    + destruct (decide (url req = "/api/me/schedule")) as [Hu|Hu].
      { left. by rewrite (bool_decide_eq_true_2 _ Hu). }
      rewrite (bool_decide_eq_false_2 _ Hu). right. right.
      destruct (List.find _ routes) as [[u file]|] eqn:Hfind.
      * left. exists file. split; [|done].
        apply find_first in Hfind as (Hp & before & after & -> & _).
        apply bool_decide_eq_true in Hp. simpl in Hp. subst u. set_solver.
      * right. split; [|done]. rewrite find_none in Hfind.
        intros ([u file] & Hu' & Hin)%list_elem_of_fmap. simpl in Hu'.
        specialize (Hfind _ Hin). apply bool_decide_eq_false in Hfind.
        by apply Hfind.
    + right. right.
      destruct (List.find _ routes) as [[u file]|] eqn:Hfind.
      * left. exists file. split; [|done].
        apply find_first in Hfind as (Hp & before & after & -> & _).
        apply bool_decide_eq_true in Hp. simpl in Hp. subst u. set_solver.
      * right. split; [|done]. rewrite find_none in Hfind.
        intros ([u file] & Hu' & Hin)%list_elem_of_fmap. simpl in Hu'.
        specialize (Hfind _ Hin). apply bool_decide_eq_false in Hfind.
        by apply Hfind.
Qed.

(** What [schedule] and [logout] do to the state and what they answer. *)
Lemma schedule_outcome env req w :
  exists r sessions',
    schedule env req w = (r, with_sessions w sessions')
    /\ sessions' = snd (Sessions.getSession (now env) (authorization req)
                                            (sessions w))
    /\ match r with
       | Ok response =>
           (status response = 200 \/ status response = 401
            \/ status response = 404)
           /\ forall file, payload response <> File file
       | Throw _ => True
       end.
Proof.
  unfold schedule.
  destruct (Sessions.getSession _ _ _) as [[[tok session]|] sessions'].
  - destruct (findInstructor _ _) as [row|].
    + destruct (Activities.extractActivities row);
        eexists _, sessions'; (split; [done|]); (split; [done|]); [|done].
      split; [tauto|done].
    + eexists _, sessions'. split; [done|]. split; [done|].
      split; [tauto|done].
  - eexists _, sessions'. split; [done|]. split; [done|]. split; [tauto|done].
Qed.

Lemma logout_outcome env req w :
  exists response sessions',
    logout env req w = (Ok response, with_sessions w sessions')
    /\ (status response = 204 \/ status response = 401)
    /\ (forall file, payload response <> File file)
    /\ forall token session,
         sessions' !! token = Some session ->
         snd (Sessions.getSession (now env) (authorization req) (sessions w))
           !! token = Some session.
Proof.
  unfold logout.
  destruct (Sessions.getSession _ _ _) as [[[tok session]|] sessions'];
    cbn [snd].
  - eexists _, _. split; [done|]. split; [by left|]. split; [done|].
    intros token s Hs. apply lookup_delete_Some in Hs. tauto.
  - eexists _, _. split; [done|]. split; [by right|]. done.
Qed.

(** Where a session of the store after a request comes from. *)
Lemma server_session_origin legacy env req w token session :
  sessions (snd (server legacy env req w)) !! token = Some session ->
  sessions w !! token = Some session
  \/ (token = toHex (randomBytes env)
      /\ Sessions.employeeId session <> ""
      /\ Sessions.expiresAt session = (now env + Sessions.SESSION_TTL_MS)%Z
      /\ status (fst (server legacy env req w)) = 200
      /\ method req = "POST" /\ url req = "/api/login").
Proof.
  unfold server.
  destruct (dispatch_cases legacy env req w)
    as [[_ ->]|[(Hm & Hu & ->)|[(_ & _ & ->)|[(_ & _ & ->)|[(f & _ & ->)|[_ ->]]]]]];
    [by left| | | |by left|by left].
  - destruct (login_outcome legacy env req w)
      as [(r & -> & _ & _)|[(e & ->)|(fields & row & _ & Hid & _ & _ & _ & ->)]];
      [by left|by left|].
    cbn [fst snd with_sessions sessions]. intros Hlook.
    apply lookup_insert_Some in Hlook as [[<- <-]|[_ Hlook]]; [|by left].
    right. done.
  - destruct (schedule_outcome env req w) as (r & sessions' & -> & -> & _).
    intros Hlook. left.
    apply (getSession_store (now env) (authorization req)).
    by destruct r.
  - destruct (logout_outcome env req w) as (r & sessions' & -> & _ & _ & Hs).
    intros Hlook. left.
    apply (getSession_store (now env) (authorization req)). by apply Hs.
Qed.

Lemma server_snapshot legacy env req w :
  dataStore (snd (server legacy env req w)) = dataStore w
  /\ objectPrototype (snd (server legacy env req w)) = objectPrototype w.
Proof.
  unfold server.
  destruct (dispatch_cases legacy env req w)
    as [[_ ->]|[(Hm & Hu & ->)|[(_ & _ & ->)|[(_ & _ & ->)|[(f & _ & ->)|[_ ->]]]]]];
    [done| | | |done|done].
  - destruct (login_outcome legacy env req w)
      as [(r & -> & _ & _)|[(e & ->)|(fields & row & _ & _ & _ & _ & _ & ->)]]; done.
  - destruct (schedule_outcome env req w) as (r & sessions' & -> & _).
    by destruct r.
  - by destruct (logout_outcome env req w) as (r & sessions' & -> & _).
Qed.

Lemma server_status legacy env req w :
  status (fst (server legacy env req w)) ∈ STATUSES.
Proof.
  unfold server, STATUSES.
  destruct (dispatch_cases legacy env req w)
    as [[_ ->]|[(Hm & Hu & ->)|[(_ & _ & ->)|[(_ & _ & ->)|[(f & _ & ->)|[_ ->]]]]]].
  - set_solver.
  - destruct (login_outcome legacy env req w)
      as [(r & -> & [Hr|Hr] & _)|[(e & ->)|(fields & row & _ & _ & _ & _ & _ & ->)]];
      cbn [fst status sendJson]; rewrite ?Hr; set_solver.
  - destruct (schedule_outcome env req w) as (r & sessions' & -> & _ & Hr).
    destruct r as [response|e]; cbn [fst status sendJson]; [|set_solver].
    destruct Hr as [[-> |[-> | ->]] _]; set_solver.
  - destruct (logout_outcome env req w) as (r & sessions' & -> & Hr & _).
    cbn [fst]. destruct Hr as [-> | ->]; set_solver.
  - cbn [fst]. unfold serveFile. destruct (existsSync env f); set_solver.
  - set_solver.
Qed.

(** X15. Whatever the request, the handler leaves the data snapshot as it
    is, answers with one of seven status codes, and leaves in the session
    store only sessions that were there before, except the one a login
    answered 200 has just stored under the token it drew, with an
    employee id that is not empty and an expiry 8 hours away. *)
Theorem server_state legacy env req w :
  let response := fst (server legacy env req w) in
  let w' := snd (server legacy env req w) in
  dataStore w' = dataStore w
  /\ objectPrototype w' = objectPrototype w
  /\ (status response ∈ STATUSES)
  /\ forall token session,
       sessions w' !! token = Some session ->
       sessions w !! token = Some session
       \/ (token = toHex (randomBytes env)
           /\ Sessions.employeeId session <> ""
           /\ Sessions.expiresAt session
              = (now env + Sessions.SESSION_TTL_MS)%Z
           /\ status response = 200
           /\ method req = "POST" /\ url req = "/api/login").
Proof.
  intros response w'. subst response w'.
  destruct (server_snapshot legacy env req w) as [Hstore Hproto].
  split; [done|]. split; [done|]. split; [apply server_status|].
  apply server_session_origin.
Qed.

(** X16. A login is answered 200, 400, 401 or 500; it is answered 200
    only when the body gives an employee id and a code that are not empty
    once trimmed, a record has that trimmed employee id and
    [verifyPassword] returns true for the first such record; and unless it
    is answered 200 the state is unchanged. *)
Theorem login_success_only_if legacy env req w :
  method req = "POST" -> url req = "/api/login" ->
  let response := fst (server legacy env req w) in
  let w' := snd (server legacy env req w) in
  (status response ∈ [200; 400; 401; 500])
  /\ (status response = 200 ->
      exists fields row,
        body req = Ok (BodyObject fields)
        /\ cleanValue (get fields "employeeId") <> ""
        /\ cleanValue (get fields "code") <> ""
        /\ findInstructor w (cleanValue (get fields "employeeId")) = Some row
        /\ employeeIdOf row = cleanValue (get fields "employeeId")
        /\ verifyPassword legacy row (cleanValue (get fields "code")) = Ok true
        /\ response = sendJson 200 (Login (toHex (randomBytes env))
                                          (cleanValue (get row "Employee"))))
  /\ (status response <> 200 -> w' = w).
Proof.
  intros Hm Hu response w'. subst response w'.
  unfold server. rewrite dispatch_login by done.
  destruct (login_outcome legacy env req w)
    as [(r & -> & Hr & _)|[(e & ->)|(fields & row & Hb & Hid & Hc & Hf & Hv & ->)]];
    cbn [fst snd status sendJson].
  - split; [destruct Hr as [-> | ->]; set_solver|].
    split; [|done]. intros Hs. rewrite Hs in Hr. by destruct Hr.
  - split; [set_solver|]. done.
  - split; [set_solver|]. split; [|done]. intros _. exists fields, row.
    repeat split; try done.
    apply find_first in Hf as [Hp _]. by apply bool_decide_eq_true in Hp.
Qed.

End ServerMore.

Section ServerFlows.
Import Js Buffer Verifier Loader Server.
Context `{Runtime}.

Lemma getSession_absent now token (sessions : gmap string Sessions.Session) :
  sessions !! token = None ->
  Sessions.getSession now (Some ("Bearer " ++ token)) sessions
  = (None, sessions).
Proof.
  intros Hnone. unfold Sessions.getSession.
  change (default "" (Some ("Bearer " ++ token))) with ("Bearer " ++ token).
  by rewrite bearer_token, Hnone.
Qed.

(** X17. A logout with the token of a live session is answered 204 and
    removes that session and nothing else; from then on a schedule request
    or a logout with that token is answered 401, at any instant, and
    changes nothing. *)
Theorem logout_revokes legacy env req w token session :
  method req = "POST" -> url req = "/api/logout" ->
  authorization req = Some ("Bearer " ++ token) ->
  sessions w !! token = Some session ->
  (now env <= Sessions.expiresAt session)%Z ->
  let w' := snd (server legacy env req w) in
  fst (server legacy env req w) = {| status := 204; payload := Empty |}
  /\ w' = with_sessions w (delete token (sessions w))
  /\ forall env' req',
       authorization req' = Some ("Bearer " ++ token) ->
       (method req' = "GET" /\ url req' = "/api/me/schedule")
       \/ (method req' = "POST" /\ url req' = "/api/logout") ->
       server legacy env' req' w'
       = (sendJson 401 (Error "Unauthorized" None), w').
Proof.
  intros Hm Hu Hauth Hin Hlive w'.
  assert (Hout : server legacy env req w
                 = ({| status := 204; payload := Empty |},
                    with_sessions w (delete token (sessions w)))).
  { unfold server. rewrite dispatch_logout by done. unfold logout.
    rewrite Hauth, (getSession_stored _ _ _ _ Hin).
    by rewrite (proj2 (Z.ltb_ge _ _) Hlive). }
  subst w'. rewrite Hout. cbn [fst snd]. split; [done|]. split; [done|].
  intros env' req' Hauth' Hreq.
  set (w' := with_sessions w (delete token (sessions w))).
  assert (Hgone : Sessions.getSession (now env') (authorization req') (sessions w')
                  = (None, sessions w')).
  { rewrite Hauth'. apply getSession_absent. apply lookup_delete_eq. }
  unfold server. destruct Hreq as [[Hm' Hu']|[Hm' Hu']].
  - rewrite dispatch_schedule by done. unfold schedule. rewrite Hgone.
    by rewrite with_sessions_same.
  - rewrite dispatch_logout by done. unfold logout. rewrite Hgone.
    by rewrite with_sessions_same.
Qed.

(** X18. After a login answered 200, a schedule request with the token of
    the answer is served from the record the login found: until 8 hours
    after the login, at that instant included, it is answered 200 with the
    trimmed name, the activities of that record and the rules and messages
    of the snapshot, or 500 when extraction throws; later it is answered
    401 and the session is removed. *)
Theorem login_then_schedule legacy env req w fields row env' req' :
  method req = "POST" -> url req = "/api/login" ->
  body req = Ok (BodyObject fields) ->
  cleanValue (get fields "employeeId") <> "" ->
  cleanValue (get fields "code") <> "" ->
  findInstructor w (cleanValue (get fields "employeeId")) = Some row ->
  verifyPassword legacy row (cleanValue (get fields "code")) = Ok true ->
  method req' = "GET" -> url req' = "/api/me/schedule" ->
  authorization req' = Some ("Bearer " ++ toHex (randomBytes env)) ->
  let w1 := snd (server legacy env req w) in
  ((now env' <= now env + Sessions.SESSION_TTL_MS)%Z ->
   server legacy env' req' w1
   = (match Activities.extractActivities row with
      | Ok activities =>
          sendJson 200 (Schedule (cleanValue (get row "Employee")) activities
                                 (programRules (dataStore w))
                                 (globalMessages (dataStore w)))
      | Throw e => sendJson 500 (Error "Server error" (Some e))
      end, w1))
  /\ ((now env + Sessions.SESSION_TTL_MS < now env')%Z ->
      server legacy env' req' w1
      = (sendJson 401 (Error "Unauthorized" None),
         with_sessions w (delete (toHex (randomBytes env)) (sessions w)))).
Proof.
  intros Hm Hu Hb Hid Hcode Hfind Hverify Hm' Hu' Hauth w1.
  set (token := toHex (randomBytes env)) in *.
  set (session := {| Sessions.employeeId := cleanValue (get fields "employeeId");
                     Sessions.employeeName := cleanValue (get row "Employee");
                     Sessions.expiresAt := (now env + Sessions.SESSION_TTL_MS)%Z |}).
  assert (Hw1 : w1 = with_sessions w (<[token := session]> (sessions w))).
  { subst w1. unfold server. rewrite dispatch_login by done. unfold login.
    rewrite Hb. apply nonempty_true in Hid, Hcode. rewrite Hid, Hcode.
    cbn [negb orb]. by rewrite Hfind, Hverify. }
  assert (Hin : sessions w1 !! token = Some session).
  { rewrite Hw1. apply lookup_insert_eq. }
  unfold server. rewrite !dispatch_schedule by done. unfold schedule.
  rewrite Hauth, (getSession_stored _ _ _ _ Hin). cbn [Sessions.expiresAt session].
  split; intros Ht.
  - rewrite (proj2 (Z.ltb_ge _ _) Ht), with_sessions_same.
    assert (Hfind1 : findInstructor w1 (Sessions.employeeId session) = Some row)
      by (by rewrite Hw1).
    rewrite Hfind1. destruct (Activities.extractActivities row); [|done].
    by rewrite Hw1.
  - rewrite (proj2 (Z.ltb_lt _ _) Ht). rewrite Hw1.
    cbn [with_sessions sessions dataStore objectPrototype].
    by rewrite delete_insert_eq.
Qed.

Lemma loadData_sessions sheets w :
  sessions (snd (loadData sheets w)) = sessions w.
Proof.
  unfold loadData. destruct (instructor sheets); [|done].
  destruct (programRulesRows sheets); [|done].
  by destruct (globalMessagesRows sheets).
Qed.

(** X19. A run of [loadData] never touches the session store, whether
    its parses succeed or not, on the timer as at the start; and when the
    sheet that a reload has loaded has no row with the employee id of a
    live session, the schedule request of that session is answered 404 and
    the session stays. *)
Theorem schedule_after_reload legacy env req w sheets rows token session :
  sessions (reload sheets w) = sessions w
  /\ sessions (snd (loadData sheets w)) = sessions w
  /\ sessions (snd (bootstrap sheets w)) = sessions w
  /\ (method req = "GET" -> url req = "/api/me/schedule" ->
      authorization req = Some ("Bearer " ++ token) ->
      sessions w !! token = Some session ->
      (now env <= Sessions.expiresAt session)%Z ->
      instructor sheets = Ok rows -> all_parsed sheets = true ->
      (forall r, r ∈ rows -> employeeIdOf r <> Sessions.employeeId session) ->
      let w' := reload sheets w in
      sessions w' !! token = Some session
      /\ server legacy env req w'
         = (sendJson 404 (Error "Employee not found" None), w')).
Proof.
  assert (Hsessions : sessions (reload sheets w) = sessions w)
    by apply loadData_sessions.
  split; [done|]. split; [apply loadData_sessions|]. split.
  { unfold bootstrap. destruct (dataFiles sheets); [|done].
    apply loadData_sessions. }
  intros Hm Hu Hauth Hin Hlive Hrows Hall Hgone w'. subst w'.
  split; [by rewrite Hsessions|].
  set (w' := reload sheets w) in *.
  assert (Hrecords : instructors (dataStore w') = map normalizeInstructor rows).
  { subst w'. unfold reload, all_parsed in *. rewrite Hrows in Hall.
    destruct (programRulesRows sheets) as [programRows|] eqn:Hp; [|done].
    destruct (globalMessagesRows sheets) as [globalRows|] eqn:Hg; [|done].
    by rewrite (loadData_parsed sheets w _ _ _ Hrows Hp Hg). }
  assert (Hnone : findInstructor w' (Sessions.employeeId session) = None).
  { unfold findInstructor. rewrite find_none, Hrecords.
    intros record (r & -> & Hr)%list_elem_of_fmap.
    apply bool_decide_eq_false_2. rewrite normalizeInstructor_employeeId.
    by apply Hgone. }
  unfold server. rewrite dispatch_schedule by done. unfold schedule.
  rewrite Hauth, Hsessions, (getSession_stored _ _ _ _ Hin).
  rewrite (proj2 (Z.ltb_ge _ _) Hlive), <- Hsessions, with_sessions_same.
  by rewrite Hnone.
Qed.

(** X20. A request for one of the three data files is answered 403
    whatever its method, headers and body; and the only files the handler
    ever sends are those of its seven static routes, for the address of
    the route, when the file exists. *)
Theorem server_files legacy env req w :
  ((url req ∈ ["/InstructorData.xlsx"; "/ProgramRules.xlsx";
               "/GlobalMessages.xlsx"]) ->
   server legacy env req w
   = (sendText 403 "Direct access to Excel files is forbidden.", w))
  /\ (forall file,
        payload (fst (server legacy env req w)) = File file ->
        (url req, file) ∈ routes /\ existsSync env file = true
        /\ server legacy env req w = ({| status := 200; payload := File file |}, w)).
Proof.
  split.
  - intros Hx. unfold server, dispatch. by rewrite bool_decide_eq_true_2.
  - intros file. unfold server.
    destruct (dispatch_cases legacy env req w)
      as [[_ ->]|[(Hm & Hu & ->)|[(_ & _ & ->)|[(_ & _ & ->)|[(f & Hf & ->)|[_ ->]]]]]];
      [done| | | | |done].
    + destruct (login_outcome legacy env req w)
        as [(r & -> & _ & Hnf)|[(e & ->)|(fields & row & _ & _ & _ & _ & _ & ->)]];
        [|done|done].
      cbn [fst]. intros Hp. by destruct (Hnf file).
    + destruct (schedule_outcome env req w) as (r & sessions' & -> & _ & Hr).
      destruct r as [response|e]; [|done]. cbn [fst]. intros Hp.
      destruct Hr as [_ Hnf]. by destruct (Hnf file).
    + destruct (logout_outcome env req w) as (r & sessions' & -> & _ & Hnf & _).
      cbn [fst]. intros Hp. by destruct (Hnf file).
    + cbn [fst snd]. unfold serveFile.
      destruct (existsSync env f) eqn:Hex; cbn [negb payload sendText]; [|done].
      by intros [= <-].
Qed.

End ServerFlows.

Section RoutingFacts.
Import Js Buffer Verifier Loader Server.
Context `{Runtime}.

Lemma route_found url file :
  (url, file) ∈ routes ->
  List.find (fun r => bool_decide (fst r = url)) routes = Some (url, file)
  /\ (url ∉ ["/InstructorData.xlsx"; "/ProgramRules.xlsx";
             "/GlobalMessages.xlsx"; "/api/login"; "/api/me/schedule";
             "/api/logout"]).
Proof.
  unfold routes. intros Hin. set_unfold in Hin.
  destruct_or!; simplify_eq;
    (split; [reflexivity|by apply (bool_decide_eq_false_1 (_ ∈ _))]).
Qed.

Lemma route_file url file file' :
  (url, file) ∈ routes -> (url, file') ∈ routes -> file = file'.
Proof.
  intros [Hf _]%route_found [Hf' _]%route_found. congruence.
Qed.

Lemma route_url url file :
  (url, file) ∈ routes ->
  url ∉ ["/InstructorData.xlsx"; "/ProgramRules.xlsx"; "/GlobalMessages.xlsx";
         "/api/login"; "/api/me/schedule"; "/api/logout"].
Proof. by intros [_ Hurl]%route_found. Qed.

(** X21. The address of a static route is answered with its file, or
    with 404 when the file does not exist, whatever the method, the
    headers and the body of the request, and the state is unchanged; and a
    request that is for no data file, no static route and none of the
    three pairs of method and address of the API is answered 404. *)
Theorem static_routes legacy env req w :
  (forall file,
      (url req, file) ∈ routes ->
      server legacy env req w = (serveFile env file, w))
  /\ ((url req ∉ ["/InstructorData.xlsx"; "/ProgramRules.xlsx";
                  "/GlobalMessages.xlsx"]) ->
      (url req ∉ map fst routes) ->
      ~ (method req = "POST" /\ url req = "/api/login") ->
      ~ (method req = "GET" /\ url req = "/api/me/schedule") ->
      ~ (method req = "POST" /\ url req = "/api/logout") ->
      server legacy env req w = (sendText 404 "Not found", w)).
Proof.
  split.
  - intros file Hroute. pose proof (route_url _ _ Hroute) as Hurl.
    unfold server.
    destruct (dispatch_cases legacy env req w)
      as [[Hx _]|[(_ & Hu & _)|[(_ & Hu & _)|[(_ & Hu & _)|[(f & Hf & ->)|[Hno _]]]]]].
    + exfalso. apply Hurl.
      change (url req ∈ (["/InstructorData.xlsx"; "/ProgramRules.xlsx";
                          "/GlobalMessages.xlsx"]
                         ++ ["/api/login"; "/api/me/schedule"; "/api/logout"])%list).
      apply elem_of_app. by left.
    + exfalso. apply Hurl. rewrite Hu. by apply (bool_decide_eq_true_1 (_ ∈ _)).
    + exfalso. apply Hurl. rewrite Hu. by apply (bool_decide_eq_true_1 (_ ∈ _)).
    + exfalso. apply Hurl. rewrite Hu. by apply (bool_decide_eq_true_1 (_ ∈ _)).
    + by rewrite (route_file _ _ _ Hf Hroute).
    + exfalso. apply Hno. apply list_elem_of_fmap. by exists (url req, file).
  - intros Hx Hroute Hlogin Hschedule Hlogout. unfold server.
    destruct (dispatch_cases legacy env req w)
      as [[Hx' _]|[(Hm & Hu & _)|[(Hm & Hu & _)|[(Hm & Hu & _)|[(f & Hf & _)|[_ ->]]]]]];
      [done|by destruct Hlogin|by destruct Hschedule|by destruct Hlogout| |done].
    exfalso. apply Hroute. apply list_elem_of_fmap. by exists (url req, f).
Qed.

End RoutingFacts.

(** ** Further properties: runs of the process *)

Section RunFacts.
Import Js Buffer Verifier Loader Server Process ServerInvariant.
Context `{Runtime}.

Lemma step_well_keyed legacy w ev :
  well_keyed w -> draws_bytes ev -> well_keyed (step legacy w ev).
Proof.
  intros Hkeyed Hbytes token session. destruct ev as [env req|sheets];
    cbn [step].
  - intros Hin.
    destruct (server_session_origin legacy env req w token session Hin)
      as [Hold|(-> & Hid & _)]; [by apply Hkeyed|].
    split; [|done]. by apply toHex_nonempty.
  - unfold reload. rewrite loadData_sessions. apply Hkeyed.
Qed.

Lemma run_well_keyed legacy events : forall w,
  well_keyed w -> Forall draws_bytes events ->
  well_keyed (run legacy w events).
Proof.
  unfold run. induction events as [|ev events IH]; intros w Hkeyed Hall;
    [done|].
  apply Forall_cons in Hall as [Hev Hall]. cbn [foldl].
  apply IH; [|done]. by apply step_well_keyed.
Qed.

(** X22. Along every run of requests, each handled with random bytes
    that are there, and of reloads, every session of the store keeps a
    token and an employee id that are not empty; so a schedule request or
    a logout whose Authorization header is not "Bearer " followed by a
    token is answered 401 after any such run. *)
Theorem run_sessions_keyed legacy w events :
  well_keyed w -> Forall draws_bytes events ->
  well_keyed (run legacy w events)
  /\ forall env req,
       (forall token, authorization req <> Some ("Bearer " ++ token)) ->
       (method req = "GET" /\ url req = "/api/me/schedule")
       \/ (method req = "POST" /\ url req = "/api/logout") ->
       answer legacy w events env req
       = sendJson 401 (Error "Unauthorized" None).
Proof.
  intros Hkeyed Hall.
  pose proof (run_well_keyed legacy events w Hkeyed Hall) as Hrun.
  split; [done|]. intros env req Hauth Hreq. unfold answer.
  set (w' := run legacy w events) in *.
  assert (Hempty : sessions w' !! "" = None).
  { destruct (sessions w' !! "") as [s|] eqn:Hs; [|done].
    by destruct (Hrun "" s Hs). }
  assert (Hget : Sessions.getSession (now env) (authorization req) (sessions w')
                 = (None, sessions w')).
  { destruct (getSession_token (now env) (authorization req) (sessions w'))
      as (token & -> & [-> |Htoken]); [by rewrite Hempty|].
    by destruct (Hauth token). }
  unfold server. destruct Hreq as [[Hm Hu]|[Hm Hu]].
  - rewrite dispatch_schedule by done. unfold schedule. by rewrite Hget.
  - rewrite dispatch_logout by done. unfold logout. by rewrite Hget.
Qed.

Lemma step_keeps_snapshot legacy w ev :
  keeps_snapshot ev ->
  dataStore (step legacy w ev) = dataStore w
  /\ objectPrototype (step legacy w ev) = objectPrototype w.
Proof.
  destruct ev as [env req|sheets]; cbn [step keeps_snapshot].
  - intros _. apply server_snapshot.
  - intros Hfail. unfold reload.
    destruct (loadData_failed sheets w Hfail) as [-> _]. done.
Qed.

Lemma run_keeps_snapshot legacy events : forall w,
  Forall keeps_snapshot events ->
  dataStore (run legacy w events) = dataStore w
  /\ objectPrototype (run legacy w events) = objectPrototype w.
Proof.
  unfold run. induction events as [|ev events IH]; intros w Hall; [done|].
  apply Forall_cons in Hall as [Hev Hall]. cbn [foldl].
  destruct (IH (step legacy w ev) Hall) as [-> ->].
  by apply step_keeps_snapshot.
Qed.

(** X23. Requests and reloads with a failed parse never change the data
    snapshot: after any run the snapshot is the one the last reload with
    three successful parses has built, and the requests in between are
    all served from it. *)
Theorem run_snapshot legacy w before sheets after :
  Forall keeps_snapshot after ->
  dataStore (run legacy w after) = dataStore w
  /\ dataStore (run legacy w (before ++ Tick sheets :: after))
     = dataStore (reload sheets (run legacy w before))
  /\ forall rows programRows globalRows,
       instructor sheets = Ok rows ->
       programRulesRows sheets = Ok programRows ->
       globalMessagesRows sheets = Ok globalRows ->
       dataStore (run legacy w (before ++ Tick sheets :: after))
       = {| instructors := map normalizeInstructor rows;
            programRules :=
              Rules.own (Rules.loadRules
                           (objectPrototype (run legacy w before)) programRows);
            globalMessages := Messages.loadMessages globalRows |}.
Proof.
  intros Hafter.
  assert (Hsplit : dataStore (run legacy w (before ++ Tick sheets :: after))
                   = dataStore (reload sheets (run legacy w before))).
  { unfold run. rewrite foldl_app. cbn [foldl step].
    by destruct (run_keeps_snapshot legacy after
                   (reload sheets (foldl (step legacy) w before)) Hafter). }
  split; [by destruct (run_keeps_snapshot legacy after w Hafter)|].
  split; [done|]. intros rows programRows globalRows Hi Hp Hg.
  rewrite Hsplit. unfold reload.
  by rewrite (loadData_parsed sheets _ _ _ _ Hi Hp Hg).
Qed.

End RunFacts.

(** ** Further properties: the service worker *)

Section ServiceWorkerFacts.
Import Js ServiceWorker.

Lemma delete_all_lookup {C : Type} (names : list string)
    (storage : gmap string C) name :
  foldr (fun key s => delete key s) storage names !! name
  = if bool_decide (name ∈ names) then None else storage !! name.
Proof.
  induction names as [|key names IH]; [done|]. cbn [foldr].
  destruct (decide (key = name)) as [->|Hne].
  - rewrite lookup_delete_eq. rewrite bool_decide_eq_true_2; [done|left].
  - rewrite lookup_delete_ne by done. rewrite IH.
    destruct (decide (name ∈ names)) as [Hin|Hin].
    + rewrite !bool_decide_eq_true_2; [done|by right|done].
    + rewrite !bool_decide_eq_false_2; [done| |done].
      intros [?|?]%elem_of_cons; [by subst|done].
Qed.

(** X24. The activate handler of the service worker deletes every cache
    whose name begins with "weeklyplanner-" and is not the name of the
    current version, and leaves all the others, the current one included,
    with what they hold. *)
Theorem activate_caches {C : Type} (caches : gmap string C) name :
  activate caches !! name = (if stale name then None else caches !! name)
  /\ activate caches !! APP_CACHE = caches !! APP_CACHE
  /\ (Sessions.startsWith "weeklyplanner-" name = false ->
      activate caches !! name = caches !! name).
Proof.
  assert (Hlookup : forall n,
            activate caches !! n = if stale n then None else caches !! n).
  { intros n. unfold activate. rewrite delete_all_lookup.
    destruct (stale n) eqn:Hstale.
    - destruct (caches !! n) as [c|] eqn:Hn; [|by case_bool_decide].
      rewrite bool_decide_eq_true_2; [done|].
      apply list_elem_of_In, List.filter_In. split; [|done].
      apply list_elem_of_In, list_elem_of_fmap. exists (n, c).
      split; [done|]. by apply elem_of_map_to_list.
    - rewrite bool_decide_eq_false_2; [done|].
      intros Hin%list_elem_of_In%List.filter_In. destruct Hin as [_ Hin].
      congruence. }
  split; [apply Hlookup|]. split.
  - by rewrite Hlookup.
  - intros Hprefix. rewrite Hlookup. unfold stale. by rewrite Hprefix.
Qed.

End ServiceWorkerFacts.

(** ** The further statements at the sample data *)

Section MoreExamples.
Import Js Buffer Verifier Sessions Activities Rules RuleTable Loader Server.
Import Process ServiceWorker Demo Samples.
#[local] Existing Instance demo_runtime.

Lemma cleanValue_clean_witness :
  is_white "a"%char = false /\ cleanValue (JStr "  ab ") = "ab".
Proof.
  split; [|reflexivity].
  apply (proj1 (proj2 (cleanValue_clean (JStr "  ab "))) "a"%char "b").
  reflexivity.
Defined.

(** The cancellation cell of group 2 is [false]: [hasValue] holds of it
    and the group is let through all the same; the date cell of group 3 is
    [false] and the group gives nothing. *)
Lemma emitted_later_group_witness :
  hasValue (get falsy_cells "Cancel2") = true
  /\ emitted falsy_cells 2 = true
  /\ emitted falsy_cells 3 = false.
Proof.
  split; [reflexivity|]. split.
  - rewrite (proj2 (proj2 (emitted_later_group falsy_cells 2 ltac:(lia))));
      reflexivity.
  - apply (proj1 (proj2 (emitted_later_group falsy_cells 3 ltac:(lia)))).
    reflexivity.
Defined.

Lemma extractActivities_returns_iff_witness :
  exists activities,
    extractActivities falsy_cells = Ok activities /\ length activities <= 16.
Proof.
  destruct (extractActivities falsy_cells) as [activities|e] eqn:Hok;
    [|by vm_compute in Hok].
  exists activities. split; [reflexivity|].
  apply (proj2 (proj2 (extractActivities_returns_iff falsy_cells))
           activities Hok).
Defined.


Lemma verifyPassword_flag_witness :
  verifyPassword true bare "abc123" = verifyPassword false bare "abc123"
  /\ verifyPassword false (delete "Salt" bare) "abc123" = Ok false.
Proof.
  split.
  - apply (proj1 (verifyPassword_flag bare "abc123")). by vm_compute.
  - apply (proj1 (proj2 (verifyPassword_flag (delete "Salt" bare) "abc123"))).
    reflexivity.
Defined.

Lemma verifyPassword_throws_iff_witness :
  exists e, verifyPassword false short_hash "abc123" = Throw e.
Proof.
  apply (proj1 (verifyPassword_throws_iff false short_hash "abc123")).
  by vm_compute.
Defined.

Lemma verifyPassword_ignores_code_witness :
  verifyPassword false hash_and_code "abc123"
  = verifyPassword false dana "abc123".
Proof.
  apply (verifyPassword_ignores_code false dana "abc123" (JStr "anything"));
    by vm_compute.
Defined.

Lemma normalizeInstructor_code_verifies_witness :
  normalizeInstructor code_only !! "Code" = None
  /\ verifyPassword false (normalizeInstructor code_only) "424242" = Ok true.
Proof.
  destruct (normalizeInstructor_code_verifies false code_only)
    as (Hgone & Hverify & _); [reflexivity|by vm_compute|].
  split; [exact Hgone|exact Hverify].
Defined.

Example loadMessages_sample :
  Messages.loadMessages message_rows
  = [ {| Messages.message := "Welcome"; Messages.type := "Alert" |};
      {| Messages.message := "Closed on Friday"; Messages.type := "Info" |} ].
Proof. reflexivity. Qed.

(** Of the two rows for chess and meeting 2 the second one stays. *)
Lemma ruleStep_last_row_wins_witness :
  notesAt (loadRules ∅ rule_rows_clash) "chess" "2"
  = Some [ {| Rules.type := "Tip"; Rules.text := "new" |} ].
Proof.
  pose proof (ruleStep_last_row_wins
                (foldl ruleStep {| own := ∅; prototypeArrays := ∅ |}
                   [ Some [JStr "constructor"; JStr "1"; JStr "Tip"; JStr "lost"];
                     Some [JStr "Chess"; JStr "2"; JStr "Tip"; JStr "old"] ])
                [JStr "chess "; JStr "2"; JStr "Tip"; JStr "new"]
                [ Some [JStr "Chess"; JStr "3"; JStr "Tip"; JStr "other"] ])
    as Hlast.
  apply Hlast.
  - reflexivity.
  - left. by apply (bool_decide_eq_true_1 (is_Some _)).
  - reflexivity.
Defined.

Lemma loadRules_no_inherited_key_witness :
  own (loadRules ∅ rule_rows_clash) !! "constructor" = None.
Proof.
  apply (loadRules_no_inherited_key ∅ rule_rows_clash "constructor").
  right. left. by apply (bool_decide_eq_true_1 (_ ∈ _)).
Defined.

(** A row without a second cell reads, as its meeting number, what it
    inherits under "1": nothing before the row named "__proto__", and the
    empty array of notes of that row after it, whose number is 0; so the
    row "Short" is skipped and the last row replaces the notes of chess
    for meeting 0 by its own, none. *)
Example loadRules_inherited_cell :
  loadRules ∅ rule_rows_inherited
  = {| own := {[ "chess" := {[ "0" := [] ]} ]};
       prototypeArrays := {[ "1" := {| created := []; writes := [] |} ]} |}
  /\ loadRules ∅ (take 4 rule_rows_inherited)
     = {| own := {[ "chess" := {[ "0" := [ {| Rules.type := "Tip";
                                              Rules.text := "old" |} ] ]} ]};
          prototypeArrays := {[ "1" := {| created := []; writes := [] |} ]} |}.
Proof. split; by vm_compute. Qed.

(** The notes of a program named "1" go into the array under "1", which
    then holds an array of one note: its text is that of the note, no
    number, and the row without a second cell is skipped. *)
Example loadRules_written_array :
  loadRules ∅ rule_rows_written
  = {| own := ∅;
       prototypeArrays :=
         {[ "1" := {| created := [];
                      writes := [ ("0", [ {| Rules.type := "Tip";
                                             Rules.text := "x" |} ]) ] |} ]} |}.
Proof. by vm_compute. Qed.

Lemma createSession_other_sessions_witness :
  snd (createSession 5000 (randomBytes env2) "1001" "Dana" (sessions world2))
    !! toHex demo_random
  = sessions world2 !! toHex demo_random.
Proof.
  apply (createSession_other_sessions 5000 (randomBytes env2) "1001" "Dana"
           (sessions world2) (toHex demo_random) 0).
  by vm_compute.
Defined.

Lemma getSession_effects_witness :
  getSession 5000 (Some "Basic abc") (sessions world2)
  = (None, sessions world2).
Proof.
  destruct (proj2 (proj2 (proj2
              (getSession_effects 5000 (Some "Basic abc") (sessions world2)))))
    as [Hr Hs]; [reflexivity|by intros token; vm_compute|].
  apply injective_projections; [exact Hr|exact Hs].
Defined.

Lemma server_state_witness :
  dataStore (snd (server false env1 (login_request "1002" "777777") world1))
  = dataStore world1.
Proof.
  apply (server_state false env1 (login_request "1002" "777777") world1).
Defined.

Lemma login_success_only_if_witness :
  snd (server false env1 (login_request "1001" "wrong") world1) = world1.
Proof.
  apply (proj2 (proj2 (login_success_only_if false env1
                         (login_request "1001" "wrong") world1
                         eq_refl eq_refl))).
  by vm_compute.
Defined.

Lemma logout_revokes_witness :
  fst (server false env2 (logout_request (toHex demo_random)) world2)
  = {| status := 204; payload := Empty |}
  /\ fst (server false env2 (schedule_request (toHex demo_random))
            (snd (server false env2 (logout_request (toHex demo_random))
                    world2)))
     = sendJson 401 (Error "Unauthorized" None).
Proof.
  destruct (logout_revokes false env2 (logout_request (toHex demo_random))
              world2 (toHex demo_random) noam_session
              eq_refl eq_refl eq_refl eq_refl)
    as (Hanswer & _ & Hlater); [by vm_compute|].
  split; [exact Hanswer|].
  exact (f_equal fst
           (Hlater env2 (schedule_request (toHex demo_random)) eq_refl
              (or_introl (conj eq_refl eq_refl)))).
Defined.

Lemma login_then_schedule_witness :
  status (fst (server false env2 (schedule_request (toHex demo_random))
                 (snd (server false env1 (login_request "1001" "abc123")
                         world1)))) = 200.
Proof.
  pose proof (login_then_schedule false env1 (login_request "1001" "abc123")
                world1
                (list_to_map [ ("employeeId", JStr "1001");
                               ("code", JStr "abc123") ])
                (normalizeInstructor dana) env2
                (schedule_request (toHex demo_random))
                eq_refl eq_refl eq_refl) as Hflow.
  destruct Hflow as [Hlive _].
  - by vm_compute.
  - by vm_compute.
  - reflexivity.
  - reflexivity.
  - reflexivity.
  - reflexivity.
  - reflexivity.
  - rewrite Hlive; [reflexivity|by vm_compute].
Defined.

Lemma schedule_after_reload_witness :
  fst (server false env2 (schedule_request (toHex demo_random))
         (reload sheets_without_noam world2))
  = sendJson 404 (Error "Employee not found" None).
Proof.
  destruct (proj2 (proj2 (proj2
              (schedule_after_reload false env2
                 (schedule_request (toHex demo_random)) world2
                 sheets_without_noam [dana] (toHex demo_random) noam_session)))
              eq_refl eq_refl eq_refl eq_refl)
    as [_ Hanswer]; [by vm_compute|reflexivity|reflexivity| |].
  - intros r Hr. apply list_elem_of_singleton in Hr. subst r. by vm_compute.
  - exact (f_equal fst Hanswer).
Defined.

Lemma server_files_witness :
  server false env1 xlsx_request world1
  = (sendText 403 "Direct access to Excel files is forbidden.", world1).
Proof.
  apply (proj1 (server_files false env1 xlsx_request world1)).
  by apply (bool_decide_eq_true_1 (_ ∈ _)).
Defined.

Lemma static_routes_witness :
  server false env1 static_request world1
  = ({| status := 200; payload := File "manifest.json" |}, world1).
Proof.
  apply (proj1 (static_routes false env1 static_request world1)
           "manifest.json").
  by apply (bool_decide_eq_true_1 (_ ∈ _)).
Defined.

Lemma run_sessions_keyed_witness :
  answer false world0
    [ Tick sheets_ok; Request env1 (login_request "1002" "777777");
      Tick sheets_broken ]
    env2 {| method := "GET"; url := "/api/me/schedule";
            authorization := Some "bearer x"; body := Ok (BodyObject ∅) |}
  = sendJson 401 (Error "Unauthorized" None).
Proof.
  apply (proj2 (run_sessions_keyed false world0
                  [ Tick sheets_ok; Request env1 (login_request "1002" "777777");
                    Tick sheets_broken ]
                  ltac:(by intros token session Hin)
                  ltac:(repeat constructor; by vm_compute))).
  - intros token. by vm_compute.
  - by left.
Defined.

Lemma run_snapshot_witness :
  dataStore (run false world0
               [ Tick sheets_ok; Request env1 (login_request "1002" "777777");
                 Tick sheets_broken ])
  = dataStore world1.
Proof.
  destruct (run_snapshot false world0 [] sheets_ok
              [ Request env1 (login_request "1002" "777777");
                Tick sheets_broken ])
    as (_ & Hlast & _); [repeat constructor|].
  exact Hlast.
Defined.

Lemma activate_caches_witness :
  activate caches_before !! "weeklyplanner-v1" = None
  /\ activate caches_before !! "weeklyplanner-v2" = Some 2
  /\ activate caches_before !! "other-app" = Some 3.
Proof.
  split; [|split].
  - rewrite (proj1 (activate_caches caches_before "weeklyplanner-v1")).
    reflexivity.
  - etrans; [exact (proj1 (proj2 (activate_caches caches_before "")))|].
    reflexivity.
  - rewrite (proj2 (proj2 (activate_caches caches_before "other-app")));
      reflexivity.
Defined.

End MoreExamples.

(** ** Further properties: normalization and the schedule, tokens *)

Section ScheduleOfNormalized.
Import Js Buffer Verifier Activities Loader Sessions.
Context `{Runtime}.

Lemma column_normalized (row : Row) name i fallback :
  name ∈ ["Date"; "Cancel"; "Program"; "StartTime"; "EndTime"; "Manager";
          "School"; "Class"; "Authority"] ->
  column (normalizeInstructor row) name i fallback = column row name i fallback.
Proof.
  intros Hname. unfold column.
  assert (Hplain : get (normalizeInstructor row) name = get row name).
  { set_unfold in Hname. destruct_or!; subst name;
      by apply normalizeInstructor_other_column. }
  assert (Hsuffixed : get (normalizeInstructor row) (name ++ pretty i)
                      = get row (name ++ pretty i)).
  { set_unfold in Hname. destruct_or!; subst name;
      by apply normalizeInstructor_other_column. }
  by rewrite Hplain, Hsuffixed.
Qed.

Lemma extractAt_normalized (row : Row) i activities :
  extractAt (normalizeInstructor row) i activities = extractAt row i activities.
Proof.
  unfold extractAt, activityOf, dateFieldOf, cancelFieldOf.
  by rewrite !column_normalized by (by apply (bool_decide_eq_true_1 (_ ∈ _))).
Qed.

(** X25. What the loader does to the credential columns of a row leaves
    its schedule alone: extraction from the normalized record gives what
    extraction from the row of the sheet gives, the list or the
    exception. *)
Theorem extractActivities_normalized (row : Row) :
  extractActivities (normalizeInstructor row) = extractActivities row.
Proof.
  assert (Hloop : forall rounds i activities,
            extractLoop (normalizeInstructor row) i rounds activities
            = extractLoop row i rounds activities).
  { induction rounds as [|rounds IH]; intros i activities; [done|].
    cbn [extractLoop]. rewrite extractAt_normalized.
    destruct (extractAt row i activities); [apply IH|done]. }
  apply Hloop.
Qed.

Lemma toHex_digits buf :
  String.length (toHex buf) = 2 * length buf
  /\ Forall (fun c => c ∈ list_ascii_of_string "0123456789abcdef")
            (list_ascii_of_string (toHex buf)).
Proof.
  assert (Hdigit : forall n, hex_digit n ∈ list_ascii_of_string "0123456789abcdef").
  { intros n. destruct n as [|p]; [by apply (bool_decide_eq_true_1 (_ ∈ _))|].
    do 4 (destruct p as [p|p|];
          try by apply (bool_decide_eq_true_1 (_ ∈ _))). }
  induction buf as [|b rest [IHlen IHall]]; [split; [done|constructor]|].
  cbn [toHex String.length list_ascii_of_string length]. split; [lia|].
  constructor; [apply Hdigit|]. constructor; [apply Hdigit|done].
Qed.

(** X26. The token [createSession] returns is the lower-case hexadecimal
    text of the random bytes, two digits for each byte, 64 characters for
    the 32 bytes the program draws; it is never empty then, and the
    session is stored under it with an expiry 8 hours after the
    creation. *)
Theorem createSession_token now random id name
    (sessions : gmap string Session) :
  length random = 32 ->
  let token := fst (createSession now random id name sessions) in
  String.length token = 64
  /\ Forall (fun c => c ∈ list_ascii_of_string "0123456789abcdef")
            (list_ascii_of_string token)
  /\ token <> ""
  /\ fromHex token = random
  /\ snd (createSession now random id name sessions) !! token
     = Some {| employeeId := id; employeeName := name;
               expiresAt := (now + 28800000)%Z |}.
Proof.
  intros Hlen token. subst token. cbn [createSession fst snd].
  destruct (toHex_digits random) as [Hlength Hall].
  split; [by rewrite Hlength, Hlen|]. split; [done|]. split.
  - apply toHex_nonempty. intros ->. done.
  - split; [apply fromHex_toHex|]. by rewrite lookup_insert_eq.
Qed.

End ScheduleOfNormalized.

Section LastExamples.
Import Js Buffer Verifier Sessions Activities Loader Server Demo Samples.
#[local] Existing Instance demo_runtime.

Lemma createSession_token_witness :
  String.length (fst (createSession 1000 demo_random "1002" "Noam" ∅)) = 64.
Proof.
  apply (createSession_token 1000 demo_random "1002" "Noam" ∅). reflexivity.
Defined.

End LastExamples.
